(** * Wall shear rate on the boundary surface of a volumetric mesh

    A shallow embedding of [vtkvmtkMeshWallShearRate::RequestData]
    (src/vtkVmtk/Misc/vtkvmtkMeshWallShearRate.cxx) and the properties its
    specification states about it.

    Conventions of the embedding.
    - A C [double] is a real number ([R]): the statements about it are
      about exact arithmetic, without rounding or overflow.  Where overflow,
      NaN or the content of uninitialised memory decides, the same lines are
      modelled on IEEE 754 binary64 (module [Binary64], Rocq's primitive
      floats) and the statements say so.
    - A C array ([double a[9]], a tuple of a VTK data array) is a [list R];
      [a.[k]] reads a cell, stdpp's [<[k:=x]>] writes one.  The local
      arrays keep their declared sizes throughout, so every read and write
      of the kernel is in range.
    - A counted [for] loop is [for_loop]: a left fold of the body over the
      indices [0, 1, ..., n-1], threading the variables the body assigns.
    - A pointer that may be NULL is an [option]; a step with undefined
      behaviour (a NULL array used, a tuple read that does not exist or
      does not fit its buffer) makes the run [None].
    - The [int] that receives the point count wraps at 32 bits.
    - The three VTK filters the method drives (gradient, geometry, normals)
      are parameters of the model: nothing is assumed about what they
      compute. *)

From Stdlib Require Import Floats.
From Stdlib Require Import Reals Lra ZArith Lia String List.
From stdpp Require Import base list.
Import ListNotations.

Open Scope R_scope.

(** ** Arrays and loops *)

(** [a[k]] on an array of doubles. *)
Definition idx (a : list R) (k : nat) : R := nth k a 0.

(** [m[i][j]] on an array of arrays of doubles. *)
Definition idx2 (m : list (list R)) (i j : nat) : R := idx (nth i m []) j.

Notation "a .[ k ]" := (idx a k) (at level 1, left associativity, format "a .[ k ]").
Notation "m .[ i , j ]" := (idx2 m i j) (at level 1, left associativity, format "m .[ i , j ]").

(** [for (k = 0; k < n; k++) body] on the state [St] the body updates. *)
Definition for_loop {St : Type} (n : nat) (body : nat -> St -> St) (s : St) : St :=
  fold_left (fun st k => body k st) (seq 0 n) s.

(** ** The numerical kernel (lines 170-203) *)

Module Kernel.

(** Lines 170-180: the nine assignments to [shearRateTensor]. *)
Definition shearRateTensor (velocityGradient : list R) : list (list R) :=
  [ [ 0.5 * (velocityGradient.[0] + velocityGradient.[0]);
      0.5 * (velocityGradient.[1] + velocityGradient.[3]);
      0.5 * (velocityGradient.[2] + velocityGradient.[6]) ];
    [ 0.5 * (velocityGradient.[3] + velocityGradient.[1]);
      0.5 * (velocityGradient.[4] + velocityGradient.[4]);
      0.5 * (velocityGradient.[5] + velocityGradient.[7]) ];
    [ 0.5 * (velocityGradient.[6] + velocityGradient.[2]);
      0.5 * (velocityGradient.[7] + velocityGradient.[5]);
      0.5 * (velocityGradient.[8] + velocityGradient.[8]) ] ].

(** Lines 182-190: [nSn], accumulated over [alpha] and [beta]. *)
Definition nSn (shearRateTensor : list (list R)) (normal : list R) : R :=
  for_loop 3 (fun alpha nSn =>
    for_loop 3 (fun beta nSn =>
      nSn - 2.0 * shearRateTensor.[alpha, beta] * normal.[alpha] * normal.[beta])
      nSn)
    0.0.

(** Lines 196-200: [nS] for the row [j], reset to [0.0] and accumulated over [k]. *)
Definition nS (shearRateTensor : list (list R)) (normal : list R) (j : nat) : R :=
  for_loop 3 (fun k nS => nS - 2.0 * shearRateTensor.[j, k] * normal.[k]) 0.0.

(** Lines 182-203: the loop over [j] stores into the buffer
    [double wallShearRate[3]], whose previous content is [wallShearRate]. *)
Definition normalProjector
    (shearRateTensor : list (list R)) (normal wallShearRate : list R) : list R :=
  let nSn := nSn shearRateTensor normal in
  for_loop 3 (fun j wallShearRate =>
    <[ j := nS shearRateTensor normal j - nSn * normal.[j] ]> wallShearRate)
    wallShearRate.

(** Lines 170-203: what one iteration of the point loop computes from the
    two tuples it has fetched. *)
Definition pointKernel (velocityGradient normal wallShearRate : list R) : list R :=
  normalProjector (shearRateTensor velocityGradient) normal wallShearRate.

End Kernel.

(** ** The reference formula, as the specification writes it *)

Module Reference.

Definition dot3 (u v : list R) : R := u.[0] * v.[0] + u.[1] * v.[1] + u.[2] * v.[2].

(** [S . n], a matrix times a column. *)
Definition matVec (S : list (list R)) (n : list R) : list R :=
  [ dot3 (nth 0%nat S []) n; dot3 (nth 1%nat S []) n; dot3 (nth 2%nat S []) n ].

(** [n . S . n]. *)
Definition quadForm (S : list (list R)) (n : list R) : R := dot3 n (matVec S n).

(** [tau = 2 * (S.n - (n.S.n) * n)]. *)
Definition tau (S : list (list R)) (n : list R) : list R :=
  [ 2 * ((matVec S n).[0] - quadForm S n * n.[0]);
    2 * ((matVec S n).[1] - quadForm S n * n.[1]);
    2 * ((matVec S n).[2] - quadForm S n * n.[2]) ].

(** [S[a][b] = S[b][a]] on the nine cells. *)
Definition symmetric (S : list (list R)) : Prop :=
  forall a b : nat, (a < 3)%nat -> (b < 3)%nat -> S.[a, b] = S.[b, a].

(** A gradient tuple that is already symmetric: [g[3i+j] = g[3j+i]]. *)
Definition symmetricTuple (g : list R) : Prop :=
  forall i j : nat, (i < 3)%nat -> (j < 3)%nat -> g.[3 * i + j] = g.[3 * j + i].

End Reference.

(** ** VTK data, as the method uses it

    The data classes are VTK's and are not part of the sources; they are
    modelled by what the method reads and writes of them. *)

Notation "'let?' x := m 'in' k" :=
  (match m with Some x => k | None => None end)
  (at level 10, x name, m at level 100, k at level 200).

(** A [vtkDataArray]: a name (possibly none), a number of components and
    the tuples, in point order. *)
Record vtkDataArray : Type := mkDataArray {
  Name : option string;
  NumberOfComponents : nat;
  Tuples : list (list R)
}.

(** Point data: the arrays in insertion order and, when one is flagged as
    the normals attribute, its position. *)
Record vtkPointData : Type := mkPointData {
  Arrays : list vtkDataArray;
  ActiveNormals : option nat
}.

(** A data set: point coordinates, cell connectivity and the attached
    fields.  [vtkUnstructuredGrid] and [vtkPolyData] differ in the cells
    they may hold, which the method never inspects. *)
Record vtkDataSet : Type := mkDataSet {
  Points : list (list R);
  Cells : list (list nat);
  PointData : vtkPointData;
  CellData : list vtkDataArray
}.

Definition vtkUnstructuredGrid : Type := vtkDataSet.
Definition vtkPolyData : Type := vtkDataSet.

(** The data object the pipeline hands to [RequestData] as its output
    before anything is stored in it. *)
Definition emptyPolyData : vtkPolyData :=
  mkDataSet [] [] (mkPointData [] None) [].

Definition hasName (name : string) (a : vtkDataArray) : bool :=
  match Name a with
  | Some n => String.eqb n name
  | None => false
  end.

(** Position of the first array called [name]. *)
Fixpoint indexOfArray (name : string) (arrays : list vtkDataArray) : option nat :=
  match arrays with
  | [] => None
  | a :: rest =>
      if hasName name a then Some 0%nat
      else option_map S (indexOfArray name rest)
  end.

(** Modelled from the spec: [vtkPointData::GetArray(name)], the mapping from
    a field name to the field; [None] is the NULL pointer. *)
Definition GetArray (pd : vtkPointData) (name : string) : option vtkDataArray :=
  let? k := indexOfArray name (Arrays pd) in Arrays pd !! k.

(** [vtkPointData::GetNormals()]: the array flagged as normals, or NULL. *)
Definition GetNormals (pd : vtkPointData) : option vtkDataArray :=
  let? k := ActiveNormals pd in Arrays pd !! k.

(** Modelled from the spec: [vtkPointData::AddArray]; an array of the same
    name is replaced where it stands (last writer wins), otherwise the new
    array is appended. *)
Definition AddArray (pd : vtkPointData) (a : vtkDataArray) : vtkPointData :=
  match (let? n := Name a in indexOfArray n (Arrays pd)) with
  | Some k => mkPointData (<[ k := a ]> (Arrays pd)) (ActiveNormals pd)
  | None => mkPointData (Arrays pd ++ [a]) (ActiveNormals pd)
  end.

(** Modelled from the spec: [vtkPolyData::DeepCopy(src)]; the target takes
    the source's points, cells and data arrays, by value. *)
Definition DeepCopy (target src : vtkPolyData) : vtkPolyData := src.

(** [GetPointData()->AddArray(a)] on a data set. *)
Definition AddPointArray (d : vtkDataSet) (a : vtkDataArray) : vtkDataSet :=
  mkDataSet (Points d) (Cells d) (AddArray (PointData d) a) (CellData d).

(** [GetNumberOfPoints()], a [vtkIdType] (64 bits). *)
Definition GetNumberOfPoints (d : vtkDataSet) : Z := Z.of_nat (length (Points d)).

(** The conversion of line 136, [int numberOfPoints = ...]: a 64-bit count
    stored in a 32-bit signed [int]. *)
Definition INT_MAX : Z := 2147483647.
Definition int_of_vtkIdType (n : Z) : Z :=
  ((n + 2 ^ 31) mod 2 ^ 32 - 2 ^ 31)%Z.

(** [vtkDataArray::GetTuple(i, buffer)]: the components of tuple [i] are
    copied to the front of the caller's buffer.  A tuple that does not
    exist, or one wider than the buffer, is undefined behaviour ([None]). *)
Definition GetTuple (a : vtkDataArray) (i : nat) (buffer : list R) : option (list R) :=
  let? t := Tuples a !! i in
  if (length t <=? length buffer)%nat
  then Some (t ++ drop (length t) buffer)
  else None.

(** [vtkDataArray::SetTuple(i, buffer)]: tuple [i], which must have been
    allocated, receives the first [NumberOfComponents] cells of the buffer. *)
Definition SetTuple (a : vtkDataArray) (i : nat) (buffer : list R) : option vtkDataArray :=
  if ((i <? length (Tuples a))%nat && (NumberOfComponents a <=? length buffer)%nat)%bool
  then Some (mkDataArray (Name a) (NumberOfComponents a)
               (<[ i := take (NumberOfComponents a) buffer ]> (Tuples a)))
  else None.

Definition SetName (a : vtkDataArray) (name : string) : vtkDataArray :=
  mkDataArray (Some name) (NumberOfComponents a) (Tuples a).

Definition SetNumberOfComponents (a : vtkDataArray) (n : nat) : vtkDataArray :=
  mkDataArray (Name a) n (Tuples a).

(** ** The filter object *)

(** The members of [vtkvmtkMeshWallShearRate]; a [char*] member is an
    optional string, [None] being NULL. *)
Record vtkvmtkMeshWallShearRate : Type := mkFilter {
  VelocityArrayName : option string;
  WallShearRateArrayName : option string;
  ComputeIndividualPartialDerivatives : Z;
  ConvergenceTolerance : R;
  QuadratureOrder : Z
}.

(** The constructor, lines 41-48. *)
Definition New : vtkvmtkMeshWallShearRate :=
  mkFilter None None 0 1E-6 3.

(** What [RequestData] sets on the gradient filter, lines 105-109. *)
Record GradientSettings : Type := mkGradientSettings {
  InputArrayName : string;
  GradientArrayName : string;
  gradientQuadratureOrder : Z;
  gradientConvergenceTolerance : R;
  gradientComputeIndividualPartialDerivatives : Z
}.

(** What [RequestData] sets on the normals filter, lines 126-128. *)
Record NormalsSettings : Type := mkNormalsSettings {
  AutoOrientNormals : bool;
  Consistency : bool;
  Splitting : bool
}.

(** What a call leaves behind: the value returned, the output data object
    and the messages passed to [vtkErrorMacro]. *)
Record Result : Type := mkResult {
  ret : Z;
  output : vtkPolyData;
  errors : list string
}.

(** The variables the point loop assigns (lines 150-153 and 138), and the
    indices [SetTuple] has been called with, in call order. *)
Record LoopState : Type := mkLoopState {
  velocityGradient : list R;
  normal : list R;
  wallShearRate : list R;
  wallShearRateArray : vtkDataArray;
  setTupleCalls : list nat
}.

Section RequestData.

(** The collaborators: [vtkvmtkUnstructuredGridGradientFilter],
    [vtkGeometryFilter] and [vtkPolyDataNormals], each as the function from
    its settings and input to its output. *)
Variable gradientFilter : GradientSettings -> vtkUnstructuredGrid -> vtkUnstructuredGrid.
Variable geometryFilter : vtkUnstructuredGrid -> vtkPolyData.
Variable normalsFilter : NormalsSettings -> vtkPolyData -> vtkPolyData.

(** The value an uninitialised [double] happens to hold. *)
Variable indeterminate : R.

(** [vtkDoubleArray::New()]. *)
Definition vtkDoubleArray_New : vtkDataArray := mkDataArray None 1 [].

(** [SetNumberOfTuples(n)]: room for [n] tuples, not initialised. *)
Definition SetNumberOfTuples (a : vtkDataArray) (n : Z) : vtkDataArray :=
  mkDataArray (Name a) (NumberOfComponents a)
    (repeat (repeat indeterminate (NumberOfComponents a)) (Z.to_nat n)).

(** Lines 97-131: the three filters in sequence, with the settings the
    method gives them. *)
Definition gradientArrayName : string := "VelocityGradient"%string.

Definition outputSurface (this : vtkvmtkMeshWallShearRate)
    (velocityArrayName : string) (input : vtkUnstructuredGrid) : vtkPolyData :=
  let gradientOutput :=
    gradientFilter
      (mkGradientSettings velocityArrayName gradientArrayName
         (QuadratureOrder this) (ConvergenceTolerance this)
         (ComputeIndividualPartialDerivatives this))
      input in
  let geometryOutput := geometryFilter gradientOutput in
  normalsFilter (mkNormalsSettings true true false) geometryOutput.

(** Lines 139-146: the name given to the new array. *)
Definition outputArrayName (this : vtkvmtkMeshWallShearRate) : string :=
  match WallShearRateArrayName this with
  | Some name => name
  | None => "WallShearRate"%string
  end.

(** Lines 138-148: the array the loop fills. *)
Definition newWallShearRateArray (this : vtkvmtkMeshWallShearRate)
    (numberOfPoints : Z) : vtkDataArray :=
  SetNumberOfTuples
    (SetNumberOfComponents (SetName vtkDoubleArray_New (outputArrayName this)) 3)
    numberOfPoints.

(** Lines 150-153 and 138-148: the loop's variables before the first
    iteration; the three local arrays are not initialised. *)
Definition initialLoopState (this : vtkvmtkMeshWallShearRate)
    (numberOfPoints : Z) : LoopState :=
  mkLoopState (repeat indeterminate 9) (repeat indeterminate 3)
    (repeat indeterminate 3) (newWallShearRateArray this numberOfPoints) [].

(** Lines 167-204: one iteration.  The two arrays are pointers that may be
    NULL; using a NULL one is undefined behaviour ([None]). *)
Definition pointBody (velocityGradientArray normalsArray : option vtkDataArray)
    (i : nat) (st : LoopState) : option LoopState :=
  let? gradients := velocityGradientArray in
  let? velocityGradient := GetTuple gradients i (velocityGradient st) in
  let? normals := normalsArray in
  let? normal := GetTuple normals i (normal st) in
  let wallShearRate := Kernel.pointKernel velocityGradient normal (wallShearRate st) in
  let? wallShearRateArray := SetTuple (wallShearRateArray st) i wallShearRate in
  Some (mkLoopState velocityGradient normal wallShearRate wallShearRateArray
          (setTupleCalls st ++ [i])).

(** An iteration on a run that may already have met undefined behaviour. *)
Definition loopStep (velocityGradientArray normalsArray : option vtkDataArray)
    (i : nat) (st : option LoopState) : option LoopState :=
  let? s := st in pointBody velocityGradientArray normalsArray i s.

(** Lines 165-205: [for (i=0; i<numberOfPoints; i++)]. *)
Definition pointLoop (velocityGradientArray normalsArray : option vtkDataArray)
    (numberOfPoints : Z) (st : LoopState) : option LoopState :=
  for_loop (Z.to_nat numberOfPoints)
    (loopStep velocityGradientArray normalsArray) (Some st).

(** Lines 70-215.  [None] is a run that met undefined behaviour. *)
Definition RequestData (this : vtkvmtkMeshWallShearRate)
    (input : vtkUnstructuredGrid) (output : vtkPolyData) : option Result :=
  match VelocityArrayName this with
  | None =>
      Some (mkResult 1 output ["VelocityArrayName not specified"%string])
  | Some velocityArrayName =>
      match GetArray (PointData input) velocityArrayName with
      | None =>
          Some (mkResult 1 output
                  ["VelocityArray with name specified does not exist"%string])
      | Some velocityArray =>
          let outputSurface := outputSurface this velocityArrayName input in
          let velocityGradientArray :=
            GetArray (PointData outputSurface) gradientArrayName in
          let normalsArray := GetNormals (PointData outputSurface) in
          let numberOfPoints := int_of_vtkIdType (GetNumberOfPoints outputSurface) in
          let? st := pointLoop velocityGradientArray normalsArray numberOfPoints
                       (initialLoopState this numberOfPoints) in
          let output := DeepCopy output outputSurface in
          let output := AddPointArray output (wallShearRateArray st) in
          Some (mkResult 1 output [])
      end
  end.

(** A returned value is a failure status when no run that does its work
    and reports no error returns it. *)
Definition failureStatus (status : Z) : Prop :=
  forall this input output res,
    RequestData this input output = Some res -> errors res = [] ->
    ret res <> status.

End RequestData.

(** ** The error taxonomy, as the specification names it *)

Inductive ErrorKind : Type :=
  | ConfigurationError
  | MissingFieldError.

(** The specification's name for each message the method reports. *)
Definition errorKind (message : string) : option ErrorKind :=
  if String.eqb message "VelocityArrayName not specified" then Some ConfigurationError
  else if String.eqb message "VelocityArray with name specified does not exist"
       then Some MissingFieldError
  else None.

(** ** What the point loop maintains *)

(** What tuple [i] of the output holds once it has been stored: the kernel
    applied to tuple [i] of the gradients and tuple [i] of the normals. *)
Definition storedAt (ga na : option vtkDataArray) (arr : vtkDataArray) (i : nat) : Prop :=
  exists gradients normals g n,
    ga = Some gradients /\ na = Some normals
    /\ Tuples gradients !! i = Some g /\ Tuples normals !! i = Some n
    /\ (length g = 9%nat -> length n = 3%nat ->
        forall w, length w = 3%nat ->
          Tuples arr !! i = Some (Kernel.pointKernel g n w)).

(** The state after [n] iterations, against the state [st0] before the
    first. *)
Record loopInvariant (ga na : option vtkDataArray) (st0 : LoopState)
    (n : nat) (st : LoopState) : Prop := mkLoopInvariant {
  inv_name : Name (wallShearRateArray st) = Name (wallShearRateArray st0);
  inv_components :
    NumberOfComponents (wallShearRateArray st)
    = NumberOfComponents (wallShearRateArray st0);
  inv_tuples :
    length (Tuples (wallShearRateArray st))
    = length (Tuples (wallShearRateArray st0));
  inv_calls : setTupleCalls st = setTupleCalls st0 ++ seq 0 n;
  inv_gradient : length (velocityGradient st) = length (velocityGradient st0);
  inv_normal : length (normal st) = length (normal st0);
  inv_buffer : length (wallShearRate st) = length (wallShearRate st0);
  inv_bound : (n <= length (Tuples (wallShearRateArray st0)))%nat;
  inv_stored : forall i, (i < n)%nat -> storedAt ga na (wallShearRateArray st) i;
  inv_rest : forall i, (n <= i)%nat ->
    Tuples (wallShearRateArray st) !! i = Tuples (wallShearRateArray st0) !! i
}.

(** ** Stand-ins for the three filters, and small meshes *)

Module TestDoubles.

(** A gradient filter whose gradient is the same tuple [g] at every point. *)
Definition constantGradient (g : list R)
    (settings : GradientSettings) (mesh : vtkUnstructuredGrid) : vtkUnstructuredGrid :=
  AddPointArray mesh
    (mkDataArray (Some (GradientArrayName settings)) 9
       (map (fun _ => g) (Points mesh))).

(** A geometry filter for a mesh all of whose points lie on the boundary. *)
Definition wholeBoundary (mesh : vtkUnstructuredGrid) : vtkPolyData := mesh.

(** A normals filter whose normal is the same vector [n] at every point. *)
Definition constantNormals (n : list R)
    (settings : NormalsSettings) (surface : vtkPolyData) : vtkPolyData :=
  let withNormals :=
    AddArray (PointData surface)
      (mkDataArray (Some "Normals"%string) 3 (map (fun _ => n) (Points surface))) in
  mkDataSet (Points surface) (Cells surface)
    (mkPointData (Arrays withNormals)
       (indexOfArray "Normals" (Arrays withNormals)))
    (CellData surface).

Definition pureShear : list R := [0; 1; 0; 1; 0; 0; 0; 0; 0].
Definition alongX : list R := [1; 0; 0].

(** Two points joined by one cell, with a velocity field. *)
Definition segment : vtkUnstructuredGrid :=
  mkDataSet [[0; 0; 0]; [1; 0; 0]] [[0; 1]%nat]
    (mkPointData [mkDataArray (Some "Velocity"%string) 3 [[0; 0; 0]; [0; 1; 0]]] None)
    [].

(** The same, carrying already a scalar field called ["WallShearRate"]. *)
Definition segmentWithField : vtkUnstructuredGrid :=
  mkDataSet [[0; 0; 0]; [1; 0; 0]] [[0; 1]%nat]
    (mkPointData
       [mkDataArray (Some "WallShearRate"%string) 1 [[5]; [5]];
        mkDataArray (Some "Velocity"%string) 3 [[0; 0; 0]; [0; 1; 0]]]
       None)
    [].

(** The filter object after [SetVelocityArrayName("Velocity")]. *)
Definition withVelocity : vtkvmtkMeshWallShearRate :=
  mkFilter (Some "Velocity"%string) None 0 1E-6 3.

Definition run : vtkvmtkMeshWallShearRate -> vtkUnstructuredGrid -> vtkPolyData ->
    option Result :=
  RequestData (constantGradient pureShear) wholeBoundary (constantNormals alongX) 0.

Definition surfaceOf : vtkvmtkMeshWallShearRate -> string -> vtkUnstructuredGrid ->
    vtkPolyData :=
  outputSurface (constantGradient pureShear) wholeBoundary (constantNormals alongX).

Definition failureStatus : Z -> Prop :=
  failureStatus (constantGradient pureShear) wholeBoundary (constantNormals alongX) 0.

(** The filter object after [SetVelocityArrayName("Pressure")], a name the
    segment has no array for. *)
Definition withPressure : vtkvmtkMeshWallShearRate :=
  mkFilter (Some "Pressure"%string) None 0 1E-6 3.

End TestDoubles.

(** ** Vocabulary for further facts about the kernel and the loop *)

Module Algebra.

(** The tuple of the transposed gradient: cell [3i+j] holds [g[3j+i]]. *)
Definition transpose (g : list R) : list R :=
  [ g.[0]; g.[3]; g.[6];
    g.[1]; g.[4]; g.[7];
    g.[2]; g.[5]; g.[8] ].

(** A gradient tuple with no symmetric part: [g[3i+j] = - g[3j+i]]. *)
Definition antisymmetricTuple (g : list R) : Prop :=
  forall i j : nat, (i < 3)%nat -> (j < 3)%nat -> g.[3 * i + j] = - g.[3 * j + i].



End Algebra.

(** Iteration [i] of the point loop can read its two tuples: both arrays
    are there, each has a tuple [i], and the tuple fits the local buffer. *)
Definition readable (ga na : option vtkDataArray) (i : nat) : Prop :=
  exists gradients normals g n,
    ga = Some gradients /\ na = Some normals
    /\ Tuples gradients !! i = Some g /\ (length g <= 9)%nat
    /\ Tuples normals !! i = Some n /\ (length n <= 3)%nat.

(** The loop state with the output array given another name. *)
Definition relabel (name : string) (st : LoopState) : LoopState :=
  mkLoopState (velocityGradient st) (normal st) (wallShearRate st)
    (SetName (wallShearRateArray st) name) (setTupleCalls st).

(** The filter object with the member [WallShearRateArrayName] replaced. *)
Definition withOutputName (this : vtkvmtkMeshWallShearRate) (name : option string) :
    vtkvmtkMeshWallShearRate :=
  mkFilter (VelocityArrayName this) name
    (ComputeIndividualPartialDerivatives this) (ConvergenceTolerance this)
    (QuadratureOrder this).

(** More stand-ins: filters that deliver less than the method expects. *)
Module EdgeDoubles.

(** A gradient filter whose tuples are as wide as [g] is long. *)
Definition gradientOfWidth (g : list R)
    (settings : GradientSettings) (mesh : vtkUnstructuredGrid) : vtkUnstructuredGrid :=
  AddPointArray mesh
    (mkDataArray (Some (GradientArrayName settings)) (length g)
       (map (fun _ => g) (Points mesh))).

(** A normals filter that attaches no normals. *)
Definition noNormals (settings : NormalsSettings) (surface : vtkPolyData) : vtkPolyData :=
  surface.

(** A mesh without points, with an empty velocity field. *)
Definition noPoints : vtkUnstructuredGrid :=
  mkDataSet [] [] (mkPointData [mkDataArray (Some "Velocity"%string) 3 []] None) [].

(** The filter object with both names set. *)
Definition withBothNames : vtkvmtkMeshWallShearRate :=
  mkFilter (Some "Velocity"%string) (Some "Shear"%string) 0 1E-6 3.

End EdgeDoubles.

(** ** The same lines on IEEE 754 doubles

    The kernel and the point loop once more, with [double] as binary64:
    every operation is rounded once, in the order the source writes them
    (no contraction into fused operations), a result too large is an
    infinity, and an uninitialised cell holds any double of its own, NaN
    included. *)

Module Binary64.

Local Open Scope float_scope.

(** [a[k]] and [m[i][j]]. *)
Definition idx (a : list float) (k : nat) : float := nth k a 0.
Definition idx2 (m : list (list float)) (i j : nat) : float := idx (nth i m []) j.

(** Lines 170-180. *)
Definition shearRateTensor (velocityGradient : list float) : list (list float) :=
  [ [ 0.5 * (idx velocityGradient 0 + idx velocityGradient 0);
      0.5 * (idx velocityGradient 1 + idx velocityGradient 3);
      0.5 * (idx velocityGradient 2 + idx velocityGradient 6) ];
    [ 0.5 * (idx velocityGradient 3 + idx velocityGradient 1);
      0.5 * (idx velocityGradient 4 + idx velocityGradient 4);
      0.5 * (idx velocityGradient 5 + idx velocityGradient 7) ];
    [ 0.5 * (idx velocityGradient 6 + idx velocityGradient 2);
      0.5 * (idx velocityGradient 7 + idx velocityGradient 5);
      0.5 * (idx velocityGradient 8 + idx velocityGradient 8) ] ].

(** Lines 182-190. *)
Definition nSn (shearRateTensor : list (list float)) (normal : list float) : float :=
  for_loop 3 (fun alpha nSn =>
    for_loop 3 (fun beta nSn =>
      nSn - 2.0 * idx2 shearRateTensor alpha beta * idx normal alpha * idx normal beta)
      nSn)
    0.0.

(** Lines 196-200, for one [j]. *)
Definition nS (shearRateTensor : list (list float)) (normal : list float) (j : nat) : float :=
  for_loop 3 (fun k nS => nS - 2.0 * idx2 shearRateTensor j k * idx normal k) 0.0.

(** Lines 182-203. *)
Definition normalProjector
    (shearRateTensor : list (list float)) (normal wallShearRate : list float) : list float :=
  let nSn := nSn shearRateTensor normal in
  for_loop 3 (fun j wallShearRate =>
    <[ j := nS shearRateTensor normal j - nSn * idx normal j ]> wallShearRate)
    wallShearRate.

(** Lines 170-203. *)
Definition pointKernel (velocityGradient normal wallShearRate : list float) : list float :=
  normalProjector (shearRateTensor velocityGradient) normal wallShearRate.

(** The largest double, and its half: the largest double whose sum with
    itself is still a double. *)
Definition DBL_MAX : float := 0x1.fffffffffffffp+1023.
Definition half_max : float := 0x1.fffffffffffffp+1022.

(** [g[3*i+j] == g[3*j+i]], with the [==] of doubles. *)
Definition symmetricTuple (g : list float) : Prop :=
  forall i j : nat, (i < 3)%nat -> (j < 3)%nat ->
    (idx g (3 * i + j) =? idx g (3 * j + i)) = true.

(** Every cell of the tuple is at most [DBL_MAX / 2] in magnitude (and so
    neither an infinity nor NaN). *)
Definition withinHalfMax (g : list float) : Prop :=
  forall k : nat, (k < 9)%nat -> (abs (idx g k) <=? half_max) = true.

(** A [vtkDataArray] of doubles. *)
Record vtkDataArray : Type := mkDataArray {
  Name : option string;
  NumberOfComponents : nat;
  Tuples : list (list float)
}.

(** [vtkDataArray::GetTuple(i, buffer)]; a tuple that does not exist, or
    one wider than the buffer, is undefined behaviour ([None]). *)
Definition GetTuple (a : vtkDataArray) (i : nat) (buffer : list float) :
    option (list float) :=
  let? t := Tuples a !! i in
  if (length t <=? length buffer)%nat
  then Some (t ++ drop (length t) buffer)
  else None.

(** [vtkDataArray::SetTuple(i, buffer)]. *)
Definition SetTuple (a : vtkDataArray) (i : nat) (buffer : list float) :
    option vtkDataArray :=
  if ((i <? length (Tuples a))%nat && (NumberOfComponents a <=? length buffer)%nat)%bool
  then Some (mkDataArray (Name a) (NumberOfComponents a)
               (<[ i := take (NumberOfComponents a) buffer ]> (Tuples a)))
  else None.

Definition SetName (a : vtkDataArray) (name : string) : vtkDataArray :=
  mkDataArray (Some name) (NumberOfComponents a) (Tuples a).

Definition SetNumberOfComponents (a : vtkDataArray) (n : nat) : vtkDataArray :=
  mkDataArray (Name a) n (Tuples a).

(** [vtkDoubleArray::New()]. *)
Definition vtkDoubleArray_New : vtkDataArray := mkDataArray None 1 [].

(** The variables the point loop assigns (lines 150-153 and 138). *)
Record LoopState : Type := mkLoopState {
  velocityGradient : list float;
  normal : list float;
  wallShearRate : list float;
  wallShearRateArray : vtkDataArray
}.

Section PointLoop.

(** What memory holds before it is written.  [indeterminate k] is what cell
    [k] of the method's frame holds on entry, the cells numbered in the
    order of lines 150-153 ([velocityGradient] from 0, [shearRateTensor]
    from 9, [normal] from 18, [wallShearRate] from 21), and
    [allocated i c] what component [c] of tuple [i] of a fresh allocation
    holds. *)
Variable indeterminate : nat -> float.
Variable allocated : nat -> nat -> float.

(** [count] cells of the frame from cell [first] on. *)
Definition uninitialised (first count : nat) : list float :=
  map indeterminate (seq first count).

(** [SetNumberOfTuples(n)]: room for [n] tuples, not initialised. *)
Definition SetNumberOfTuples (a : vtkDataArray) (n : Z) : vtkDataArray :=
  mkDataArray (Name a) (NumberOfComponents a)
    (map (fun i => map (allocated i) (seq 0 (NumberOfComponents a)))
       (seq 0 (Z.to_nat n))).

(** Lines 138-148. *)
Definition newWallShearRateArray (this : vtkvmtkMeshWallShearRate)
    (numberOfPoints : Z) : vtkDataArray :=
  SetNumberOfTuples
    (SetNumberOfComponents (SetName vtkDoubleArray_New (outputArrayName this)) 3)
    numberOfPoints.

(** Lines 150-153 and 138-148: the loop's variables before the first
    iteration. *)
Definition initialLoopState (this : vtkvmtkMeshWallShearRate)
    (numberOfPoints : Z) : LoopState :=
  mkLoopState (uninitialised 0 9) (uninitialised 18 3) (uninitialised 21 3)
    (newWallShearRateArray this numberOfPoints).

End PointLoop.

(** Lines 167-204: one iteration. *)
Definition pointBody (velocityGradientArray normalsArray : option vtkDataArray)
    (i : nat) (st : LoopState) : option LoopState :=
  let? gradients := velocityGradientArray in
  let? velocityGradient := GetTuple gradients i (velocityGradient st) in
  let? normals := normalsArray in
  let? normal := GetTuple normals i (normal st) in
  let wallShearRate := pointKernel velocityGradient normal (wallShearRate st) in
  let? wallShearRateArray := SetTuple (wallShearRateArray st) i wallShearRate in
  Some (mkLoopState velocityGradient normal wallShearRate wallShearRateArray).

Definition loopStep (velocityGradientArray normalsArray : option vtkDataArray)
    (i : nat) (st : option LoopState) : option LoopState :=
  let? s := st in pointBody velocityGradientArray normalsArray i s.

(** Lines 165-205: [for (i=0; i<numberOfPoints; i++)]. *)
Definition pointLoop (velocityGradientArray normalsArray : option vtkDataArray)
    (numberOfPoints : Z) (st : LoopState) : option LoopState :=
  for_loop (Z.to_nat numberOfPoints)
    (loopStep velocityGradientArray normalsArray) (Some st).

(** Lines 133-205: the array the loop leaves for line 208 to attach, from
    the two arrays of the surface and its number of points; [None] is a run
    that met undefined behaviour. *)
Definition filledArray (indeterminate : nat -> float) (allocated : nat -> nat -> float)
    (this : vtkvmtkMeshWallShearRate)
    (velocityGradientArray normalsArray : option vtkDataArray)
    (numberOfPoints : Z) : option vtkDataArray :=
  option_map wallShearRateArray
    (pointLoop velocityGradientArray normalsArray numberOfPoints
       (initialLoopState indeterminate allocated this numberOfPoints)).

End Binary64.

(** Doubles and arrays of doubles to run the lines on. *)
Module Binary64Doubles.

Local Open Scope float_scope.

(** The double nearest to 1e308. *)
Definition big : float := 0x1.1ccf385ebc8ap+1023.

(** A symmetric gradient whose off-diagonal sum overflows. *)
Definition overflowingShear : list float := [0; big; 0; big; 0; 0; 0; 0; 0].

(** A symmetric gradient of moderate size. *)
Definition moderate : list float := [1; 2; 3; 2; 4; 5; 3; 5; 6].

(** A gradient that overflows when doubled, for a zero normal. *)
Definition overflowingStretch : list float := [big; 0; 0; 0; 0; 0; 0; 0; 0].

Definition pureShear : list float := [0; 1; 0; 1; 0; 0; 0; 0; 0].
Definition alongX : list float := [1; 0; 0].

(** Two points with the same gradient and the same normal. *)
Definition gradients : Binary64.vtkDataArray :=
  Binary64.mkDataArray (Some "VelocityGradient"%string) 9 [pureShear; pureShear].
Definition normals : Binary64.vtkDataArray :=
  Binary64.mkDataArray (Some "Normals"%string) 3 [alongX; alongX].

(** The same points with gradients of 8 components and normals of 2. *)
Definition narrowGradients : Binary64.vtkDataArray :=
  Binary64.mkDataArray (Some "VelocityGradient"%string) 8
    [[0; 1; 0; 1; 0; 0; 0; 0]; [0; 1; 0; 1; 0; 0; 0; 0]].
Definition narrowNormals : Binary64.vtkDataArray :=
  Binary64.mkDataArray (Some "Normals"%string) 2 [[1; 0]; [1; 0]].

(** Memory full of NaN, and memory holding a different double in each
    cell. *)
Definition allNaN (k : nat) : float := nan.
Definition counting (k : nat) : float := of_uint63 (Uint63.of_Z (Z.of_nat k)).
Definition heapNaN (i c : nat) : float := nan.
Definition heapCounting (i c : nat) : float :=
  of_uint63 (Uint63.of_Z (Z.of_nat (3 * i + c))).

End Binary64Doubles.

(** ** Facts about the kernel *)

Lemma half_lit : 0.5 = / 2.
Proof. lra. Qed.

Lemma two_lit : 2.0 = 2.
Proof. lra. Qed.

Lemma zero_lit : 0.0 = 0.
Proof. lra. Qed.

Ltac lits := rewrite ?half_lit, ?two_lit, ?zero_lit.

(** Three cases for an index below three. *)
Lemma lt3_cases (i : nat) : (i < 3)%nat -> i = 0%nat \/ i = 1%nat \/ i = 2%nat.
Proof. lia. Qed.

Ltac index3 i H := destruct (lt3_cases i H) as [-> | [-> | ->]].

(** The double contraction, unrolled. *)
Lemma nSn_unfold (S : list (list R)) (n : list R) :
  Kernel.nSn S n = - 2 * Reference.quadForm S n.
Proof.
  unfold Kernel.nSn, for_loop, Reference.quadForm, Reference.matVec, Reference.dot3.
  cbn [seq fold_left]. unfold idx2, idx. cbn [nth]. lits. ring.
Qed.

(** One row contraction, unrolled. *)
Lemma nS_unfold (S : list (list R)) (n : list R) (j : nat) :
  Kernel.nS S n j = - 2 * Reference.dot3 (nth j S []) n.
Proof.
  unfold Kernel.nS, for_loop, Reference.dot3.
  cbn [seq fold_left]. unfold idx2. lits. ring.
Qed.

(** The loop over [j] overwrites the three cells of the buffer. *)
Lemma normalProjector_cells (S : list (list R)) (n w : list R) :
  length w = 3%nat ->
  Kernel.normalProjector S n w =
    [ Kernel.nS S n 0 - Kernel.nSn S n * n.[0];
      Kernel.nS S n 1 - Kernel.nSn S n * n.[1];
      Kernel.nS S n 2 - Kernel.nSn S n * n.[2] ].
Proof.
  intros Hw.
  destruct w as [|w0 [|w1 [|w2 [|? ?]]]]; try discriminate Hw.
  reflexivity.
Qed.

Lemma normalProjector_length (S : list (list R)) (n w : list R) :
  length (Kernel.normalProjector S n w) = length w.
Proof.
  unfold Kernel.normalProjector, for_loop. cbn [seq fold_left].
  now rewrite !length_insert.
Qed.

Lemma pointKernel_cells (g n w : list R) :
  length w = 3%nat ->
  Kernel.pointKernel g n w =
    let S := Kernel.shearRateTensor g in
    [ - 2 * (Reference.matVec S n).[0] + 2 * Reference.quadForm S n * n.[0];
      - 2 * (Reference.matVec S n).[1] + 2 * Reference.quadForm S n * n.[1];
      - 2 * (Reference.matVec S n).[2] + 2 * Reference.quadForm S n * n.[2] ].
Proof.
  intros Hw. unfold Kernel.pointKernel.
  rewrite (normalProjector_cells _ _ _ Hw), nSn_unfold, !nS_unfold.
  cbv zeta. unfold Reference.quadForm, Reference.matVec, Reference.dot3, idx.
  cbn [nth]. f_equal; [ | f_equal; [ | f_equal ] ]; ring.
Qed.

(** The content of the buffer before the loop over [j] does not matter. *)
Lemma pointKernel_buffer (g n w w' : list R) :
  length w = 3%nat -> length w' = 3%nat ->
  Kernel.pointKernel g n w = Kernel.pointKernel g n w'.
Proof.
  intros Hw Hw'. unfold Kernel.pointKernel.
  now rewrite (normalProjector_cells _ _ _ Hw), (normalProjector_cells _ _ _ Hw').
Qed.

(** ** The symmetrizer *)

(** C4. For every gradient tuple [g] and all [i], [j] below three, the
    symmetrizer's cell [S[i][j]] equals [S[j][i]] and equals
    [0.5 * (g[3i+j] + g[3j+i])]; the function is total and its value is a
    3 by 3 array whatever the tuple holds. *)
Theorem shearRateTensor_contract (g : list R) (i j : nat) :
  (i < 3)%nat -> (j < 3)%nat ->
  (Kernel.shearRateTensor g).[i, j] = (Kernel.shearRateTensor g).[j, i]
  /\ (Kernel.shearRateTensor g).[i, j] = 0.5 * (g.[3 * i + j] + g.[3 * j + i])
  /\ length (Kernel.shearRateTensor g) = 3%nat
  /\ length (nth i (Kernel.shearRateTensor g) []) = 3%nat.
Proof.
  intros Hi Hj.
  index3 i Hi; index3 j Hj; unfold Kernel.shearRateTensor, idx2;
    cbn [nth idx Nat.mul Nat.add length];
    repeat split; try reflexivity; unfold idx; cbn [nth]; lra.
Qed.

Lemma shearRateTensor_contract_witness :
  let g := [1; 2; 3; 4; 5; 6; 7; 8; 9] in
  (Kernel.shearRateTensor g).[0, 1] = (Kernel.shearRateTensor g).[1, 0]
  /\ (Kernel.shearRateTensor g).[0, 1] = 0.5 * (g.[3 * 0 + 1] + g.[3 * 1 + 0])
  /\ length (Kernel.shearRateTensor g) = 3%nat
  /\ length (nth 0%nat (Kernel.shearRateTensor g) []) = 3%nat.
Proof.
  intros g. apply (shearRateTensor_contract g 0 1); lia.
Defined.

Lemma shearRateTensor_symmetric (g : list R) :
  Reference.symmetric (Kernel.shearRateTensor g).
Proof. intros a b Ha Hb. now apply shearRateTensor_contract. Qed.

(** In exact arithmetic the symmetrizer returns the cells of a tuple that
    is already symmetric ([g[3i+j] = g[3j+i]]): [S[i][j] = g[3i+j]] for all
    [i], [j] below three.  On doubles this holds up to [DBL_MAX / 2] only
    (see the kernel on doubles). *)
Lemma shearRateTensor_idempotent (g : list R) (i j : nat) :
  Reference.symmetricTuple g ->
  (i < 3)%nat -> (j < 3)%nat ->
  (Kernel.shearRateTensor g).[i, j] = g.[3 * i + j].
Proof.
  intros Hg Hi Hj.
  destruct (shearRateTensor_contract g i j Hi Hj) as (_ & -> & _).
  rewrite <- (Hg i j Hi Hj). lra.
Qed.

(** The same, on the whole array: a symmetric 9-tuple is the row-major
    flattening of its symmetrization. *)
Lemma shearRateTensor_idempotent_flat (g : list R) :
  length g = 9%nat -> Reference.symmetricTuple g ->
  concat (Kernel.shearRateTensor g) = g.
Proof.
  intros Hlen Hg.
  assert (H : forall i j, (i < 3)%nat -> (j < 3)%nat ->
            (Kernel.shearRateTensor g).[i, j] = g.[3 * i + j])
    by (intros; now apply shearRateTensor_idempotent).
  do 10 (destruct g as [|? g]; try discriminate Hlen).
  pose proof (H 0 0)%nat as H00. pose proof (H 0 1)%nat as H01.
  pose proof (H 0 2)%nat as H02. pose proof (H 1 0)%nat as H10.
  pose proof (H 1 1)%nat as H11. pose proof (H 1 2)%nat as H12.
  pose proof (H 2 0)%nat as H20. pose proof (H 2 1)%nat as H21.
  pose proof (H 2 2)%nat as H22.
  unfold Kernel.shearRateTensor, idx2, idx in *. cbn [nth Nat.mul Nat.add] in *.
  cbn [concat app].
  rewrite H00, H01, H02, H10, H11, H12, H20, H21, H22 by lia.
  reflexivity.
Qed.

(** ** The normal projector *)

(** C2. For every gradient tuple [g] and every normal [n], of unit length
    or not, the vector the kernel stores is
    [-2 * (S.n) + 2 * (n.S.n) * n] with [S] the symmetrization of [g],
    that is, the reference [tau = 2 * (S.n - (n.S.n) * n)] negated,
    component for component. *)
Theorem pointKernel_negated_reference (g n w : list R) :
  length w = 3%nat ->
  let S := Kernel.shearRateTensor g in
  Kernel.pointKernel g n w =
    [ - 2 * (Reference.matVec S n).[0] + 2 * Reference.quadForm S n * n.[0];
      - 2 * (Reference.matVec S n).[1] + 2 * Reference.quadForm S n * n.[1];
      - 2 * (Reference.matVec S n).[2] + 2 * Reference.quadForm S n * n.[2] ]
  /\ Kernel.pointKernel g n w = map Ropp (Reference.tau S n).
Proof.
  intros Hw S. split.
  - now apply pointKernel_cells.
  - rewrite (pointKernel_cells _ _ _ Hw). cbv zeta. fold S.
    unfold Reference.tau. cbn [map].
    f_equal; [ | f_equal; [ | f_equal ] ]; ring.
Qed.

Lemma pointKernel_negated_reference_witness :
  let g := [1; 2; 3; 4; 5; 6; 7; 8; 9] in
  let n := [2; 0; 1] in
  Kernel.pointKernel g n [0; 0; 0] =
    map Ropp (Reference.tau (Kernel.shearRateTensor g) n).
Proof.
  intros g n.
  apply (pointKernel_negated_reference g n [0; 0; 0]). reflexivity.
Defined.

(** C3. For every symmetric [S] and every normal [n] with [n.n = 1], the
    vector the normal projector stores is orthogonal to [n]:
    [tau.n = 0], exactly. *)
Theorem normalProjector_tangential (S : list (list R)) (n w : list R) :
  length w = 3%nat ->
  Reference.symmetric S ->
  Reference.dot3 n n = 1 ->
  Reference.dot3 (Kernel.normalProjector S n w) n = 0.
Proof.
  intros Hw _ Hn.
  rewrite (normalProjector_cells _ _ _ Hw), nSn_unfold, !nS_unfold.
  set (q := Reference.quadForm S n).
  set (r0 := Reference.dot3 (nth 0%nat S []) n).
  set (r1 := Reference.dot3 (nth 1%nat S []) n).
  set (r2 := Reference.dot3 (nth 2%nat S []) n).
  assert (Hq : q = n.[0] * r0 + n.[1] * r1 + n.[2] * r2) by reflexivity.
  unfold Reference.dot3 in Hn |- *.
  change ([_; _; _].[0]) with (- 2 * r0 - - 2 * q * n.[0]).
  change ([_; _; _].[1]) with (- 2 * r1 - - 2 * q * n.[1]).
  change ([_; _; _].[2]) with (- 2 * r2 - - 2 * q * n.[2]).
  transitivity (- 2 * (n.[0] * r0 + n.[1] * r1 + n.[2] * r2)
                + 2 * q * (n.[0] * n.[0] + n.[1] * n.[1] + n.[2] * n.[2])).
  - ring.
  - rewrite <- Hq, Hn. ring.
Qed.

Lemma unit_normal_example : Reference.dot3 [0.6; 0.8; 0] [0.6; 0.8; 0] = 1.
Proof. unfold Reference.dot3, idx. cbn [nth]. lra. Defined.

Lemma normalProjector_tangential_witness :
  Reference.dot3
    (Kernel.normalProjector (Kernel.shearRateTensor [1; 2; 3; 4; 5; 6; 7; 8; 9])
       [0.6; 0.8; 0] [0; 0; 0])
    [0.6; 0.8; 0] = 0.
Proof.
  apply (normalProjector_tangential
           (Kernel.shearRateTensor [1; 2; 3; 4; 5; 6; 7; 8; 9])
           [0.6; 0.8; 0] [0; 0; 0]).
  - reflexivity.
  - apply shearRateTensor_symmetric.
  - exact unit_normal_example.
Defined.

(** C1. The sign of the stored vector against the reference formula
    [tau = 2 * (S.n - (n.S.n) * n)], evaluated on the pure shear
    [g[1] = g[3] = 1] with the unit normal [(1, 0, 0)]: the kernel stores
    [(0, -2, 0)] where the formula gives [(0, 2, 0)]. *)
Theorem normalProjector_at_pure_shear :
  let S := Kernel.shearRateTensor [0; 1; 0; 1; 0; 0; 0; 0; 0] in
  let n := [1; 0; 0] in
  Reference.symmetric S
  /\ Reference.dot3 n n = 1
  /\ Kernel.normalProjector S n [0; 0; 0] = [0; -2; 0]
  /\ Reference.tau S n = [0; 2; 0]
  /\ Kernel.normalProjector S n [0; 0; 0] <> Reference.tau S n.
Proof.
  intros S n.
  assert (Hcode : Kernel.normalProjector S n [0; 0; 0] = [0; -2; 0]).
  { rewrite normalProjector_cells by reflexivity.
    rewrite nSn_unfold, !nS_unfold.
    unfold Reference.quadForm, Reference.matVec, Reference.dot3, S, n,
      Kernel.shearRateTensor, idx.
    cbn [nth]. f_equal; [ | f_equal; [ | f_equal ] ]; lra. }
  assert (Href : Reference.tau S n = [0; 2; 0]).
  { unfold Reference.tau, Reference.quadForm, Reference.matVec, Reference.dot3,
      S, n, Kernel.shearRateTensor, idx.
    cbn [nth]. f_equal; [ | f_equal; [ | f_equal ] ]; lra. }
  repeat split.
  - apply shearRateTensor_symmetric.
  - unfold Reference.dot3, n, idx. cbn [nth]. lra.
  - exact Hcode.
  - exact Href.
  - rewrite Hcode, Href. intros Heq.
    assert (H : -2 = 2) by congruence. lra.
Qed.

(** Two scenarios of the specification: a vanishing gradient gives a
    vanishing vector, and so does the pure shear in the plane orthogonal
    to the normal [(0, 0, 1)]. *)
Example zero_gradient (n : list R) :
  Kernel.pointKernel [0; 0; 0; 0; 0; 0; 0; 0; 0] n [0; 0; 0] = [0; 0; 0].
Proof.
  rewrite pointKernel_cells by reflexivity. cbv zeta.
  unfold Reference.quadForm, Reference.matVec, Reference.dot3,
    Kernel.shearRateTensor, idx.
  cbn [nth]. f_equal; [ | f_equal; [ | f_equal ] ]; lra.
Qed.

Example pure_shear_normal_z :
  Kernel.pointKernel [0; 1; 0; 1; 0; 0; 0; 0; 0] [0; 0; 1] [0; 0; 0] = [0; 0; 0].
Proof.
  rewrite pointKernel_cells by reflexivity. cbv zeta.
  unfold Reference.quadForm, Reference.matVec, Reference.dot3,
    Kernel.shearRateTensor, idx.
  cbn [nth]. f_equal; [ | f_equal; [ | f_equal ] ]; lra.
Qed.

(** ** Facts about loops and arrays *)

Lemma for_loop_S {St : Type} (n : nat) (body : nat -> St -> St) (s : St) :
  for_loop (S n) body s = body n (for_loop n body s).
Proof.
  unfold for_loop. now rewrite seq_S, fold_left_app.
Qed.

Lemma GetTuple_inv (a : vtkDataArray) (i : nat) (buffer r : list R) :
  GetTuple a i buffer = Some r ->
  exists t, Tuples a !! i = Some t
    /\ (length t <= length buffer)%nat
    /\ r = t ++ drop (length t) buffer.
Proof.
  unfold GetTuple. destruct (Tuples a !! i) as [t|]; [ | discriminate ].
  destruct (Nat.leb_spec (length t) (length buffer)); [ | discriminate ].
  intros [= <-]. now exists t.
Qed.

Lemma GetTuple_length (a : vtkDataArray) (i : nat) (buffer r : list R) :
  GetTuple a i buffer = Some r -> length r = length buffer.
Proof.
  intros (t & _ & Hle & ->)%GetTuple_inv.
  rewrite length_app, length_drop. lia.
Qed.

Lemma SetTuple_inv (a a' : vtkDataArray) (i : nat) (buffer : list R) :
  SetTuple a i buffer = Some a' ->
  (i < length (Tuples a))%nat
  /\ (NumberOfComponents a <= length buffer)%nat
  /\ a' = mkDataArray (Name a) (NumberOfComponents a)
            (<[ i := take (NumberOfComponents a) buffer ]> (Tuples a)).
Proof.
  unfold SetTuple.
  destruct (Nat.ltb_spec i (length (Tuples a)));
    destruct (Nat.leb_spec (NumberOfComponents a) (length buffer));
    cbn [andb]; try discriminate.
  intros [= <-]. auto.
Qed.

Lemma SetTuple_in_range (a : vtkDataArray) (i : nat) (buffer : list R) :
  (i < length (Tuples a))%nat ->
  (NumberOfComponents a <= length buffer)%nat ->
  SetTuple a i buffer =
    Some (mkDataArray (Name a) (NumberOfComponents a)
            (<[ i := take (NumberOfComponents a) buffer ]> (Tuples a))).
Proof.
  intros Hi Hc. unfold SetTuple.
  destruct (Nat.ltb_spec i (length (Tuples a))); [ | lia ].
  destruct (Nat.leb_spec (NumberOfComponents a) (length buffer)); [ | lia ].
  reflexivity.
Qed.

(** *** Arrays by name *)

Lemma indexOfArray_Some (name : string) (arrays : list vtkDataArray) (k : nat) :
  indexOfArray name arrays = Some k ->
  exists a, arrays !! k = Some a /\ hasName name a = true.
Proof.
  revert k. induction arrays as [|b rest IH]; intros k; cbn [indexOfArray].
  - discriminate.
  - destruct (hasName name b) eqn:Hb.
    + intros [= <-]. now exists b.
    + destruct (indexOfArray name rest) as [k'|]; cbn [option_map]; [ | discriminate ].
      intros [= <-]. now apply IH.
Qed.

Lemma indexOfArray_insert (name : string) (arrays : list vtkDataArray)
    (k : nat) (a : vtkDataArray) :
  indexOfArray name arrays = Some k -> hasName name a = true ->
  indexOfArray name (<[ k := a ]> arrays) = Some k.
Proof.
  revert k. induction arrays as [|b rest IH]; intros k; cbn [indexOfArray].
  - discriminate.
  - destruct (hasName name b) eqn:Hb.
    + intros [= <-] Ha.
      change (<[ 0%nat := a ]> (b :: rest)) with (a :: rest).
      cbn [indexOfArray]. now rewrite Ha.
    + destruct (indexOfArray name rest) as [k'|] eqn:Hk; cbn [option_map];
        [ | discriminate ].
      intros [= <-] Ha.
      change (<[ S k' := a ]> (b :: rest)) with (b :: <[ k' := a ]> rest).
      cbn [indexOfArray]. rewrite Hb, (IH k') by auto. reflexivity.
Qed.

Lemma indexOfArray_append (name : string) (arrays : list vtkDataArray)
    (a : vtkDataArray) :
  indexOfArray name arrays = None -> hasName name a = true ->
  indexOfArray name (arrays ++ [a]) = Some (length arrays).
Proof.
  induction arrays as [|b rest IH]; cbn [indexOfArray app length].
  - intros _ ->. reflexivity.
  - destruct (hasName name b); [ discriminate | ].
    destruct (indexOfArray name rest); cbn [option_map]; [ discriminate | ].
    intros _ Ha. now rewrite IH.
Qed.

Lemma hasName_Name (name : string) (a : vtkDataArray) :
  Name a = Some name -> hasName name a = true.
Proof. unfold hasName. intros ->. apply String.eqb_refl. Qed.

(** An absent name has no position, and conversely. *)
Lemma GetArray_None (pd : vtkPointData) (name : string) :
  GetArray pd name = None <-> indexOfArray name (Arrays pd) = None.
Proof.
  unfold GetArray. destruct (indexOfArray name (Arrays pd)) as [k|] eqn:Hk.
  - destruct (indexOfArray_Some _ _ _ Hk) as (a & -> & _). split; discriminate.
  - split; reflexivity.
Qed.

(** The array just added is the one its name now designates. *)
Lemma GetArray_AddArray (pd : vtkPointData) (a : vtkDataArray) (name : string) :
  Name a = Some name -> GetArray (AddArray pd a) name = Some a.
Proof.
  intros Ha. pose proof (hasName_Name _ _ Ha) as Hn.
  unfold AddArray, GetArray. rewrite Ha.
  destruct (indexOfArray name (Arrays pd)) as [k|] eqn:Hk; cbn [Arrays].
  - rewrite (indexOfArray_insert _ _ _ _ Hk Hn).
    destruct (indexOfArray_Some _ _ _ Hk) as (b & Hb & _).
    apply list_lookup_insert_eq. now apply lookup_lt_Some in Hb.
  - rewrite (indexOfArray_append _ _ _ Hk Hn).
    now rewrite lookup_app_r, Nat.sub_diag by lia.
Qed.

(** Under a name no array carries yet, adding appends. *)
Lemma AddArray_fresh (pd : vtkPointData) (a : vtkDataArray) (name : string) :
  Name a = Some name -> GetArray pd name = None ->
  AddArray pd a = mkPointData (Arrays pd ++ [a]) (ActiveNormals pd).
Proof.
  intros Ha Hfresh%GetArray_None. unfold AddArray. now rewrite Ha, Hfresh.
Qed.

(** Under a name an array carries already, adding replaces that array
    where it stands; the number of arrays does not change. *)
Lemma AddArray_replaces (pd : vtkPointData) (a old : vtkDataArray) (name : string) :
  Name a = Some name -> GetArray pd name = Some old ->
  exists k, Arrays pd !! k = Some old
    /\ AddArray pd a = mkPointData (<[ k := a ]> (Arrays pd)) (ActiveNormals pd)
    /\ length (Arrays (AddArray pd a)) = length (Arrays pd).
Proof.
  intros Ha Hold. unfold AddArray, GetArray in *. rewrite Ha.
  destruct (indexOfArray name (Arrays pd)) as [k|]; [ | discriminate ].
  exists k. cbn [Arrays]. now rewrite length_insert.
Qed.

(** ** The point loop *)

Lemma pointBody_inv (ga na : option vtkDataArray) (i : nat) (st st' : LoopState) :
  pointBody ga na i st = Some st' ->
  exists gradients normals g n arr,
    ga = Some gradients /\ na = Some normals
    /\ GetTuple gradients i (velocityGradient st) = Some g
    /\ GetTuple normals i (normal st) = Some n
    /\ SetTuple (wallShearRateArray st) i
         (Kernel.pointKernel g n (wallShearRate st)) = Some arr
    /\ st' = mkLoopState g n (Kernel.pointKernel g n (wallShearRate st)) arr
               (setTupleCalls st ++ [i]).
Proof.
  unfold pointBody.
  destruct ga as [gradients|]; [ | discriminate ].
  destruct (GetTuple gradients i (velocityGradient st)) as [g|] eqn:Hg;
    [ | discriminate ].
  destruct na as [normals|]; [ | discriminate ].
  destruct (GetTuple normals i (normal st)) as [n|] eqn:Hn; [ | discriminate ].
  destruct (SetTuple _ i _) as [arr|] eqn:Harr; [ | discriminate ].
  intros [= <-]. exists gradients, normals, g, n, arr. auto 10.
Qed.

Lemma pointLoop_unfold (ga na : option vtkDataArray) (numberOfPoints : Z)
    (st : LoopState) :
  pointLoop ga na numberOfPoints st
  = for_loop (Z.to_nat numberOfPoints) (loopStep ga na) (Some st).
Proof. reflexivity. Qed.

Lemma loop_invariant (ga na : option vtkDataArray) (st0 : LoopState) :
  length (velocityGradient st0) = 9%nat ->
  length (normal st0) = 3%nat ->
  length (wallShearRate st0) = 3%nat ->
  NumberOfComponents (wallShearRateArray st0) = 3%nat ->
  forall n st,
    for_loop n (loopStep ga na) (Some st0) = Some st ->
    loopInvariant ga na st0 n st.
Proof.
  intros Hg0 Hn0 Hw0 Hc0. induction n as [|n IH]; intros st.
  - intros [= <-]. constructor; auto; try lia.
    now rewrite app_nil_r.
  - rewrite for_loop_S.
    destruct (for_loop n (loopStep ga na) (Some st0)) as [s|]; [ | discriminate ].
    specialize (IH s eq_refl). destruct IH.
    cbn [loopStep].
    intros (gradients & normals & g & nrm & arr & -> & -> & Hg & Hnrm & Harr & ->)
      %pointBody_inv.
    apply SetTuple_inv in Harr as (Hlt & Hle & ->).
    pose proof (GetTuple_length _ _ _ _ Hg) as Hlg.
    pose proof (GetTuple_length _ _ _ _ Hnrm) as Hln.
    assert (Hk : length (Kernel.pointKernel g nrm (wallShearRate s)) = 3%nat).
    { unfold Kernel.pointKernel. rewrite normalProjector_length. congruence. }
    constructor; cbn [wallShearRateArray Name NumberOfComponents Tuples
                        setTupleCalls velocityGradient normal wallShearRate].
    + assumption.
    + assumption.
    + now rewrite length_insert.
    + rewrite inv_calls0, seq_S, app_assoc. reflexivity.
    + congruence.
    + congruence.
    + congruence.
    + lia.
    + intros i Hi. destruct (Nat.eq_dec i n) as [-> | Hne].
      * apply GetTuple_inv in Hg as (tg & Htg & _ & Heg).
        apply GetTuple_inv in Hnrm as (tn & Htn & _ & Hen).
        exists gradients, normals, tg, tn. repeat split; auto.
        intros Hltg Hltn w Hw.
        rewrite drop_ge, app_nil_r in Heg by lia.
        rewrite drop_ge, app_nil_r in Hen by lia.
        subst g nrm. cbn [wallShearRateArray Tuples].
        rewrite list_lookup_insert_eq by assumption.
        rewrite inv_components0, Hc0, take_ge by lia.
        f_equal. apply pointKernel_buffer; congruence.
      * destruct (inv_stored0 i ltac:(lia))
          as (gs & ns & tg & tn & Hga & Hna & Htg & Htn & Hst).
        exists gs, ns, tg, tn. repeat split; auto.
        intros Hltg Hltn w Hw. cbn [wallShearRateArray Tuples].
        rewrite list_lookup_insert_ne by lia. now apply Hst.
    + intros i Hi. rewrite list_lookup_insert_ne by lia. apply inv_rest0. lia.
Qed.

(** The loop runs to its end when both arrays are there and hold, for
    every index below the bound, a tuple that fits its buffer. *)
Lemma loop_returns (gradients normals : vtkDataArray) (st0 : LoopState) :
  length (velocityGradient st0) = 9%nat ->
  length (normal st0) = 3%nat ->
  length (wallShearRate st0) = 3%nat ->
  NumberOfComponents (wallShearRateArray st0) = 3%nat ->
  forall n,
    (n <= length (Tuples (wallShearRateArray st0)))%nat ->
    (forall i, (i < n)%nat ->
       exists g, Tuples gradients !! i = Some g /\ (length g <= 9)%nat) ->
    (forall i, (i < n)%nat ->
       exists m, Tuples normals !! i = Some m /\ (length m <= 3)%nat) ->
    exists st,
      for_loop n (loopStep (Some gradients) (Some normals)) (Some st0) = Some st.
Proof.
  intros Hg0 Hn0 Hw0 Hc0. induction n as [|n IH]; intros Hbound Hgs Hns.
  - now exists st0.
  - destruct IH as (s & Hs); [ lia | auto | auto | ].
    pose proof (loop_invariant _ _ _ Hg0 Hn0 Hw0 Hc0 _ _ Hs) as [].
    destruct (Hgs n ltac:(lia)) as (g & Hg & Hlg).
    destruct (Hns n ltac:(lia)) as (m & Hm & Hlm).
    rewrite for_loop_S, Hs. cbn [loopStep]. unfold pointBody, GetTuple.
    rewrite Hg, Hm.
    destruct (Nat.leb_spec (length g) (length (velocityGradient s))); [ | lia ].
    destruct (Nat.leb_spec (length m) (length (normal s))); [ | lia ].
    rewrite SetTuple_in_range.
    + eauto.
    + lia.
    + unfold Kernel.pointKernel. rewrite normalProjector_length. lia.
Qed.

Lemma int_of_vtkIdType_small (n : Z) :
  (0 <= n <= INT_MAX)%Z -> int_of_vtkIdType n = n.
Proof.
  unfold int_of_vtkIdType, INT_MAX. intros Hn.
  rewrite Z.mod_small; lia.
Qed.

(** ** The whole method *)

Section RequestDataFacts.

Variable gradientFilter : GradientSettings -> vtkUnstructuredGrid -> vtkUnstructuredGrid.
Variable geometryFilter : vtkUnstructuredGrid -> vtkPolyData.
Variable normalsFilter : NormalsSettings -> vtkPolyData -> vtkPolyData.
Variable indeterminate : R.

Let surfaceOf := outputSurface gradientFilter geometryFilter normalsFilter.
Let run := RequestData gradientFilter geometryFilter normalsFilter indeterminate.
Let start := initialLoopState indeterminate.

(** Every path through the method ends in [return 1]. *)
Lemma RequestData_ret (this : vtkvmtkMeshWallShearRate)
    (input : vtkUnstructuredGrid) (out : vtkPolyData) (res : Result) :
  run this input out = Some res -> ret res = 1%Z.
Proof.
  unfold run, RequestData.
  destruct (VelocityArrayName this) as [v|]; [ | now intros [= <-] ].
  destruct (GetArray (PointData input) v); [ | now intros [= <-] ].
  destruct (pointLoop _ _ _ _); [ | discriminate ].
  now intros [= <-].
Qed.

(** A run that reported nothing went through both checks and the loop. *)
Lemma RequestData_success (this : vtkvmtkMeshWallShearRate)
    (input : vtkUnstructuredGrid) (out : vtkPolyData) (res : Result) (v : string) :
  VelocityArrayName this = Some v ->
  run this input out = Some res -> errors res = [] ->
  let surface := surfaceOf this v input in
  let numberOfPoints := int_of_vtkIdType (GetNumberOfPoints surface) in
  exists st,
    GetArray (PointData input) v <> None
    /\ pointLoop (GetArray (PointData surface) gradientArrayName)
         (GetNormals (PointData surface)) numberOfPoints
         (start this numberOfPoints) = Some st
    /\ res = mkResult 1 (AddPointArray surface (wallShearRateArray st)) [].
Proof.
  intros Hv. unfold run, RequestData. rewrite Hv.
  destruct (GetArray (PointData input) v); [ | intros [= <-]; discriminate ].
  cbv zeta. fold surfaceOf start.
  destruct (pointLoop _ _ _ _) as [st|]; [ | discriminate ].
  intros [= <-] _. exists st. repeat split. discriminate.
Qed.

Lemma start_invariant (this : vtkvmtkMeshWallShearRate) (numberOfPoints : Z) :
  length (velocityGradient (start this numberOfPoints)) = 9%nat
  /\ length (normal (start this numberOfPoints)) = 3%nat
  /\ length (wallShearRate (start this numberOfPoints)) = 3%nat
  /\ NumberOfComponents (wallShearRateArray (start this numberOfPoints)) = 3%nat
  /\ Name (wallShearRateArray (start this numberOfPoints))
     = Some (outputArrayName this)
  /\ length (Tuples (wallShearRateArray (start this numberOfPoints)))
     = Z.to_nat numberOfPoints
  /\ setTupleCalls (start this numberOfPoints) = [].
Proof.
  unfold start, initialLoopState, newWallShearRateArray, SetNumberOfTuples.
  cbn. rewrite repeat_length. auto 10.
Qed.

(** What the loop of a run has done when it ends. *)
Lemma pointLoop_invariant (this : vtkvmtkMeshWallShearRate)
    (ga na : option vtkDataArray) (numberOfPoints : Z) (st : LoopState) :
  pointLoop ga na numberOfPoints (start this numberOfPoints) = Some st ->
  loopInvariant ga na (start this numberOfPoints) (Z.to_nat numberOfPoints) st.
Proof.
  destruct (start_invariant this numberOfPoints) as (Hg & Hn & Hw & Hc & _).
  rewrite pointLoop_unfold. now apply loop_invariant.
Qed.

(** A run returns, and reports nothing, as soon as the input has the
    velocity array and the surface has both arrays with, for every index
    the loop visits, a tuple that fits its buffer. *)
Lemma RequestData_returns (this : vtkvmtkMeshWallShearRate)
    (input : vtkUnstructuredGrid) (out : vtkPolyData) (v : string)
    (gradients normals : vtkDataArray) :
  VelocityArrayName this = Some v ->
  GetArray (PointData input) v <> None ->
  let surface := surfaceOf this v input in
  let N := Z.to_nat (int_of_vtkIdType (GetNumberOfPoints surface)) in
  GetArray (PointData surface) gradientArrayName = Some gradients ->
  GetNormals (PointData surface) = Some normals ->
  (forall i, (i < N)%nat ->
     exists g, Tuples gradients !! i = Some g /\ (length g <= 9)%nat) ->
  (forall i, (i < N)%nat ->
     exists m, Tuples normals !! i = Some m /\ (length m <= 3)%nat) ->
  exists res, run this input out = Some res /\ errors res = [] /\ ret res = 1%Z.
Proof.
  intros Hv Hva surface N Hga Hna Hgs Hns.
  destruct (start_invariant this (int_of_vtkIdType (GetNumberOfPoints surface)))
    as (Hg & Hn & Hw & Hc & _ & Hlen & _).
  destruct (loop_returns gradients normals _ Hg Hn Hw Hc N) as (st & Hst);
    [ fold N in Hlen; lia | assumption | assumption | ].
  unfold run, RequestData. rewrite Hv.
  destruct (GetArray (PointData input) v); [ | contradiction ].
  cbv zeta. fold surfaceOf. fold surface. rewrite Hga, Hna.
  rewrite pointLoop_unfold. fold start. fold N. rewrite Hst.
  eexists. repeat split.
Qed.

(** C9. When the caller has set no output name the computed array is
    attached, on a run that completes, under ["WallShearRate"]; when the
    caller has set one, under exactly that name. *)
Theorem RequestData_output_name (this : vtkvmtkMeshWallShearRate)
    (input : vtkUnstructuredGrid) (out : vtkPolyData) (res : Result) (v : string) :
  VelocityArrayName this = Some v ->
  run this input out = Some res -> errors res = [] ->
  let surface := surfaceOf this v input in
  let numberOfPoints := int_of_vtkIdType (GetNumberOfPoints surface) in
  exists st,
    pointLoop (GetArray (PointData surface) gradientArrayName)
      (GetNormals (PointData surface)) numberOfPoints
      (start this numberOfPoints) = Some st
    /\ (WallShearRateArrayName this = None ->
        Name (wallShearRateArray st) = Some "WallShearRate"%string
        /\ GetArray (PointData (output res)) "WallShearRate"
           = Some (wallShearRateArray st))
    /\ (forall name, WallShearRateArrayName this = Some name ->
        Name (wallShearRateArray st) = Some name
        /\ GetArray (PointData (output res)) name = Some (wallShearRateArray st)).
Proof.
  intros Hv Hrun Herr surface numberOfPoints.
  destruct (RequestData_success _ _ _ _ _ Hv Hrun Herr) as (st & _ & Hloop & ->).
  fold surface numberOfPoints in Hloop.
  exists st. split; [ exact Hloop | ].
  pose proof (pointLoop_invariant _ _ _ _ _ Hloop) as [].
  destruct (start_invariant this numberOfPoints) as (_ & _ & _ & _ & Hname & _).
  rewrite Hname in inv_name0. unfold outputArrayName in inv_name0.
  cbn [output AddPointArray PointData].
  split.
  - intros Hnone. rewrite Hnone in inv_name0.
    split; [ assumption | now apply GetArray_AddArray ].
  - intros name Hsome. rewrite Hsome in inv_name0.
    split; [ assumption | now apply GetArray_AddArray ].
Qed.


(** C5. With no velocity array name set, the method reports the message
    the specification calls [ConfigurationError] and hands back the
    output as it received it, nothing attached; the value it returns is
    [1], which is the value every run returns, so the failure shows in the
    report only. *)
Theorem RequestData_without_velocity_name (this : vtkvmtkMeshWallShearRate)
    (input : vtkUnstructuredGrid) (out : vtkPolyData) :
  VelocityArrayName this = None ->
  exists res,
    run this input out = Some res
    /\ map errorKind (errors res) = [Some ConfigurationError]
    /\ output res = out
    /\ ret res = 1%Z
    /\ (forall this' input' out' res',
          run this' input' out' = Some res' -> ret res' = ret res).
Proof.
  intros Hv. eexists. split.
  - unfold run, RequestData. rewrite Hv. reflexivity.
  - cbn. repeat split. intros ? ? ? ? H. now apply RequestData_ret in H.
Qed.

(** C6. With a velocity array name that no array of the input's point
    data carries, the method reports the message the specification calls
    [MissingFieldError] and hands back the output as it received it (empty
    when it was empty), nothing attached; the value it returns is [1],
    which is the value every run returns. *)
Theorem RequestData_missing_velocity_array (this : vtkvmtkMeshWallShearRate)
    (input : vtkUnstructuredGrid) (out : vtkPolyData) (v : string) :
  VelocityArrayName this = Some v ->
  GetArray (PointData input) v = None ->
  exists res,
    run this input out = Some res
    /\ map errorKind (errors res) = [Some MissingFieldError]
    /\ output res = out
    /\ (out = emptyPolyData -> output res = emptyPolyData)
    /\ ret res = 1%Z
    /\ (forall this' input' out' res',
          run this' input' out' = Some res' -> ret res' = ret res).
Proof.
  intros Hv Hmissing. eexists. split.
  - unfold run, RequestData. rewrite Hv, Hmissing. reflexivity.
  - cbn. repeat split; auto. intros ? ? ? ? H. now apply RequestData_ret in H.
Qed.

(** C8. On a run that completes, the output has the points, the cells,
    the cell data and the normals flag of the surface the normals filter
    produced.  Its point data is that surface's with the computed array,
    of 3 components and carrying the output name, added: appended after the
    surface's arrays, all unchanged, when none of them carries that name;
    put in the place of the first one that does, otherwise. *)
Theorem RequestData_output_frame (this : vtkvmtkMeshWallShearRate)
    (input : vtkUnstructuredGrid) (out : vtkPolyData) (res : Result) (v : string) :
  VelocityArrayName this = Some v ->
  run this input out = Some res -> errors res = [] ->
  let surface := surfaceOf this v input in
  exists field,
    Points (output res) = Points surface
    /\ Cells (output res) = Cells surface
    /\ CellData (output res) = CellData surface
    /\ ActiveNormals (PointData (output res)) = ActiveNormals (PointData surface)
    /\ Name field = Some (outputArrayName this)
    /\ NumberOfComponents field = 3%nat
    /\ (GetArray (PointData surface) (outputArrayName this) = None ->
        Arrays (PointData (output res)) = Arrays (PointData surface) ++ [field])
    /\ (forall old,
          GetArray (PointData surface) (outputArrayName this) = Some old ->
          exists k, Arrays (PointData surface) !! k = Some old
            /\ Arrays (PointData (output res))
               = <[ k := field ]> (Arrays (PointData surface))).
Proof.
  intros Hv Hrun Herr surface.
  destruct (RequestData_success _ _ _ _ _ Hv Hrun Herr) as (st & _ & Hloop & ->).
  fold surface in Hloop.
  pose proof (pointLoop_invariant _ _ _ _ _ Hloop) as [].
  destruct (start_invariant this (int_of_vtkIdType (GetNumberOfPoints surface)))
    as (_ & _ & _ & Hc & Hname & _).
  assert (Hn : Name (wallShearRateArray st) = Some (outputArrayName this))
    by congruence.
  exists (wallShearRateArray st).
  cbn [output AddPointArray Points Cells CellData PointData].
  fold surfaceOf. fold surface.
  split; [ reflexivity | ]. split; [ reflexivity | ]. split; [ reflexivity | ].
  split; [ | split; [ exact Hn | split; [ congruence | split ] ] ].
  - unfold AddArray. now destruct (let? n := _ in _).
  - intros Hfresh. now rewrite (AddArray_fresh _ _ _ Hn Hfresh).
  - intros old Hold.
    destruct (AddArray_replaces _ _ _ _ Hn Hold) as (k & Hk & -> & _).
    now exists k.
Qed.

End RequestDataFacts.

(** ** The theorems at work on the stand-ins *)

Lemma segment_passes :
  exists res,
    TestDoubles.run TestDoubles.withVelocity TestDoubles.segment emptyPolyData = Some res
    /\ errors res = [].
Proof. eexists. split; reflexivity. Qed.

Lemma segment_field_attached :
  exists res,
    TestDoubles.run TestDoubles.withVelocity TestDoubles.segment emptyPolyData = Some res
    /\ GetArray (PointData (output res)) "WallShearRate" <> None.
Proof. eexists. split; [ reflexivity | discriminate ]. Qed.





Lemma RequestData_output_name_witness :
  exists res field,
    TestDoubles.run TestDoubles.withVelocity TestDoubles.segment emptyPolyData = Some res
    /\ Name field = Some "WallShearRate"%string
    /\ GetArray (PointData (output res)) "WallShearRate" = Some field.
Proof.
  destruct segment_passes as (res & Hrun & Herr).
  destruct (RequestData_output_name
              (TestDoubles.constantGradient TestDoubles.pureShear)
              TestDoubles.wholeBoundary
              (TestDoubles.constantNormals TestDoubles.alongX) 0
              TestDoubles.withVelocity TestDoubles.segment emptyPolyData res
              "Velocity"%string
              eq_refl Hrun Herr)
    as (st & _ & Hdefault & _).
  destruct (Hdefault eq_refl) as (Hname & Hfield).
  exists res, (wallShearRateArray st). auto.
Defined.

Lemma RequestData_output_frame_witness :
  exists res field,
    TestDoubles.run TestDoubles.withVelocity TestDoubles.segment emptyPolyData = Some res
    /\ Arrays (PointData (output res))
       = Arrays
           (PointData
              (TestDoubles.surfaceOf TestDoubles.withVelocity "Velocity"
                 TestDoubles.segment))
         ++ [field]
    /\ NumberOfComponents field = 3%nat.
Proof.
  destruct segment_passes as (res & Hrun & Herr).
  destruct (RequestData_output_frame
              (TestDoubles.constantGradient TestDoubles.pureShear)
              TestDoubles.wholeBoundary
              (TestDoubles.constantNormals TestDoubles.alongX) 0
              TestDoubles.withVelocity TestDoubles.segment emptyPolyData res
              "Velocity"%string
              eq_refl Hrun Herr)
    as (field & _ & _ & _ & _ & _ & Hcomponents & Hfresh & _).
  exists res, field. split; [ exact Hrun | ].
  split; [ exact (Hfresh eq_refl) | exact Hcomponents ].
Defined.

Lemma RequestData_without_velocity_name_witness :
  exists res,
    TestDoubles.run New TestDoubles.segment emptyPolyData = Some res
    /\ map errorKind (errors res) = [Some ConfigurationError]
    /\ output res = emptyPolyData
    /\ ret res = 1%Z.
Proof.
  destruct (RequestData_without_velocity_name
              (TestDoubles.constantGradient TestDoubles.pureShear)
              TestDoubles.wholeBoundary
              (TestDoubles.constantNormals TestDoubles.alongX) 0
              New TestDoubles.segment emptyPolyData eq_refl)
    as (res & Hrun & Hkind & Hout & Hret & _).
  exists res. auto.
Defined.

Lemma RequestData_missing_velocity_array_witness :
  exists res,
    TestDoubles.run TestDoubles.withPressure TestDoubles.segment emptyPolyData
    = Some res
    /\ map errorKind (errors res) = [Some MissingFieldError]
    /\ output res = emptyPolyData
    /\ ret res = 1%Z.
Proof.
  destruct (RequestData_missing_velocity_array
              (TestDoubles.constantGradient TestDoubles.pureShear)
              TestDoubles.wholeBoundary
              (TestDoubles.constantNormals TestDoubles.alongX) 0
              TestDoubles.withPressure
              TestDoubles.segment emptyPolyData "Pressure"%string
              eq_refl eq_refl)
    as (res & Hrun & Hkind & Hout & _ & Hret & _).
  exists res. auto.
Defined.

(** C5, as stated, fails.  On the segment, the run with no velocity array
    name reports its error, and the value it returns is no failure status:
    the run with the name set, which reports nothing and attaches the
    field, returns the same value. *)
Lemma missing_name_returns_no_failure_status :
  exists failed,
    TestDoubles.run New TestDoubles.segment emptyPolyData = Some failed
    /\ map errorKind (errors failed) = [Some ConfigurationError]
    /\ ~ TestDoubles.failureStatus (ret failed).
Proof.
  eexists. split; [ reflexivity | ]. split; [ reflexivity | ].
  intros Hfailure. destruct segment_passes as (passed & Hrun & Herr).
  apply (Hfailure _ _ _ _ Hrun Herr).
  now apply RequestData_ret in Hrun.
Qed.

(** C6, as stated, fails.  On the segment, the run asked for an array the
    input does not have reports its error, and the value it returns is no
    failure status: a run which reports nothing and attaches the field
    returns the same value. *)
Lemma missing_array_returns_no_failure_status :
  exists failed,
    TestDoubles.run TestDoubles.withPressure TestDoubles.segment emptyPolyData
    = Some failed
    /\ map errorKind (errors failed) = [Some MissingFieldError]
    /\ ~ TestDoubles.failureStatus (ret failed).
Proof.
  eexists. split; [ reflexivity | ]. split; [ reflexivity | ].
  intros Hfailure. destruct segment_passes as (passed & Hrun & Herr).
  apply (Hfailure _ _ _ _ Hrun Herr).
  now apply RequestData_ret in Hrun.
Qed.

(** C8, as stated, fails.  On the segment that carries a one-component
    field called ["WallShearRate"], the surface handed over by the normals
    filter has that field; the run completes; the output has as many point
    arrays as the surface, not one more, and under that name the new
    3-component array in place of the surface's. *)
Lemma existing_field_is_replaced :
  let surface :=
    TestDoubles.surfaceOf TestDoubles.withVelocity "Velocity"
      TestDoubles.segmentWithField in
  exists res old new,
    TestDoubles.run TestDoubles.withVelocity TestDoubles.segmentWithField emptyPolyData
    = Some res
    /\ errors res = []
    /\ GetArray (PointData surface) "WallShearRate" = Some old
    /\ GetArray (PointData (output res)) "WallShearRate" = Some new
    /\ NumberOfComponents old = 1%nat
    /\ NumberOfComponents new = 3%nat
    /\ ~ List.In old (Arrays (PointData (output res)))
    /\ length (Arrays (PointData (output res)))
       = length (Arrays (PointData surface)).
Proof.
  intros surface. do 3 eexists.
  split; [ reflexivity | ]. split; [ reflexivity | ].
  split; [ reflexivity | ]. split; [ reflexivity | ].
  split; [ reflexivity | ]. split; [ reflexivity | ].
  split; [ | reflexivity ].
  cbn. intros [H | [H | [H | [H | []]]]]; discriminate H.
Qed.

(** ** Further facts about the kernel (lines 170-203) *)

Lemma idx_map_Ropp (n : list R) (k : nat) : (map Ropp n).[k] = - n.[k].
Proof.
  unfold idx. rewrite <- (map_nth Ropp n 0 k). now rewrite Ropp_0.
Qed.

Lemma idx_cons_0 (x : R) (l : list R) : (x :: l).[0] = x.
Proof. reflexivity. Qed.

Lemma idx_cons_S (x : R) (l : list R) (k : nat) : (x :: l).[S k] = l.[k].
Proof. reflexivity. Qed.

(** Reads of an array written out cell by cell. *)
Ltac read_cells := repeat (rewrite idx_cons_0 || rewrite idx_cons_S).

(** Equality of two arrays of three cells, or of three rows of three
    cells, cell by cell. *)
Ltac cells tac :=
  repeat match goal with |- _ :: _ = _ :: _ => f_equal end; tac.
Ltac rows tac := cells tac.

(** X1. Symmetrizing is a projection: for every gradient tuple, the
    symmetrization of the (row-major) symmetrized tuple is the
    symmetrized tuple. *)
Theorem shearRateTensor_projection (g : list R) :
  Kernel.shearRateTensor (concat (Kernel.shearRateTensor g))
  = Kernel.shearRateTensor g.
Proof.
  unfold Kernel.shearRateTensor. cbn [concat app]. unfold idx. cbn [nth].
  rows ltac:(lra).
Qed.

(** X2. Only the symmetric part of the gradient matters: the transposed
    gradient has the same strain-rate tensor and yields the same stored
    vector, for every normal. *)
Theorem pointKernel_transpose (g n w : list R) :
  Kernel.shearRateTensor (Algebra.transpose g) = Kernel.shearRateTensor g
  /\ Kernel.pointKernel (Algebra.transpose g) n w = Kernel.pointKernel g n w.
Proof.
  assert (H : Kernel.shearRateTensor (Algebra.transpose g) = Kernel.shearRateTensor g).
  { unfold Kernel.shearRateTensor, Algebra.transpose, idx. cbn [nth]. rows ltac:(lra). }
  split; [ exact H | ]. unfold Kernel.pointKernel. now rewrite H.
Qed.

(** The strain-rate tensor of a gradient with no symmetric part is zero. *)
Lemma shearRateTensor_antisymmetric (g : list R) :
  Algebra.antisymmetricTuple g ->
  Kernel.shearRateTensor g = [ [0; 0; 0]; [0; 0; 0]; [0; 0; 0] ].
Proof.
  intros Hg.
  pose proof (Hg 0 0 ltac:(lia) ltac:(lia))%nat as H00.
  pose proof (Hg 0 1 ltac:(lia) ltac:(lia))%nat as H01.
  pose proof (Hg 0 2 ltac:(lia) ltac:(lia))%nat as H02.
  pose proof (Hg 1 1 ltac:(lia) ltac:(lia))%nat as H11.
  pose proof (Hg 1 2 ltac:(lia) ltac:(lia))%nat as H12.
  pose proof (Hg 2 2 ltac:(lia) ltac:(lia))%nat as H22.
  cbn [Nat.mul Nat.add] in *.
  unfold Kernel.shearRateTensor. rows ltac:(lra).
Qed.

(** X3. A gradient with no symmetric part (a rigid rotation) yields the
    zero vector, for every normal. *)
Theorem pointKernel_antisymmetric (g n w : list R) :
  length w = 3%nat ->
  Algebra.antisymmetricTuple g ->
  Kernel.pointKernel g n w = [0; 0; 0].
Proof.
  intros Hw Hg.
  rewrite (pointKernel_cells _ _ _ Hw). cbv zeta.
  rewrite (shearRateTensor_antisymmetric _ Hg).
  unfold Reference.quadForm, Reference.matVec, Reference.dot3, idx. cbn [nth].
  cells ltac:(ring).
Qed.

Lemma antisymmetricTuple_example :
  Algebra.antisymmetricTuple [0; 1; -2; -1; 0; 3; 2; -3; 0].
Proof.
  intros i j Hi Hj. index3 i Hi; index3 j Hj; unfold idx; cbn [nth Nat.mul Nat.add]; lra.
Defined.

Lemma pointKernel_antisymmetric_witness :
  Kernel.pointKernel [0; 1; -2; -1; 0; 3; 2; -3; 0] [0.6; 0.8; 0] [0; 0; 0]
  = [0; 0; 0].
Proof.
  apply (pointKernel_antisymmetric [0; 1; -2; -1; 0; 3; 2; -3; 0] [0.6; 0.8; 0]
           [0; 0; 0] eq_refl antisymmetricTuple_example).
Defined.



(** X5. The stored vector is odd in the normal: with the normal reversed
    the kernel stores the opposite vector. *)
Theorem pointKernel_reversed_normal (g n w : list R) :
  length w = 3%nat ->
  Kernel.pointKernel g (map Ropp n) w = map Ropp (Kernel.pointKernel g n w).
Proof.
  intros Hw. rewrite !(pointKernel_cells _ _ _ Hw). cbv zeta.
  unfold Reference.quadForm, Reference.matVec, Reference.dot3.
  read_cells. rewrite !idx_map_Ropp. cbn [map].
  cells ltac:(ring).
Qed.

Lemma pointKernel_reversed_normal_witness :
  Kernel.pointKernel [1; 2; 3; 4; 5; 6; 7; 8; 9] (map Ropp [0.6; 0.8; 0]) [0; 0; 0]
  = map Ropp (Kernel.pointKernel [1; 2; 3; 4; 5; 6; 7; 8; 9] [0.6; 0.8; 0] [0; 0; 0]).
Proof.
  apply (pointKernel_reversed_normal [1; 2; 3; 4; 5; 6; 7; 8; 9] [0.6; 0.8; 0]
           [0; 0; 0] eq_refl).
Defined.






(** ** Further facts about the point loop (lines 165-205) *)

Lemma loop_None (ga na : option vtkDataArray) (n : nat) :
  for_loop n (loopStep ga na) None = None.
Proof.
  induction n as [|n IH]; [ reflexivity | ].
  now rewrite for_loop_S, IH.
Qed.

(** An iteration with one of the two arrays missing is undefined. *)
Lemma loop_missing_array (ga na : option vtkDataArray) (st0 : LoopState) (n : nat) :
  ga = None \/ na = None ->
  for_loop (S n) (loopStep ga na) (Some st0) = None.
Proof.
  intros Hmissing. rewrite for_loop_S.
  destruct (for_loop n (loopStep ga na) (Some st0)) as [s|]; [ | reflexivity ].
  cbn [loopStep]. unfold pointBody.
  destruct Hmissing as [-> | ->]; [ reflexivity | ].
  destruct ga as [gradients|]; [ | reflexivity ].
  now destruct (GetTuple gradients n (velocityGradient s)).
Qed.

(** A loop that can read its tuples in each of [n] iterations runs them
    all. *)
Lemma loop_completes (ga na : option vtkDataArray) (st0 : LoopState) :
  length (velocityGradient st0) = 9%nat ->
  length (normal st0) = 3%nat ->
  length (wallShearRate st0) = 3%nat ->
  NumberOfComponents (wallShearRateArray st0) = 3%nat ->
  forall n,
    (n <= length (Tuples (wallShearRateArray st0)))%nat ->
    (forall i, (i < n)%nat -> readable ga na i) ->
    exists st, for_loop n (loopStep ga na) (Some st0) = Some st.
Proof.
  intros Hg0 Hn0 Hw0 Hc0 n Hbound Hread.
  destruct n as [|n]; [ now exists st0 | ].
  destruct (Hread 0%nat ltac:(lia)) as (gradients & normals & _ & _ & -> & -> & _).
  apply loop_returns; auto.
  - intros i Hi.
    destruct (Hread i Hi) as (gs & ns & g & m & [= <-] & [= <-] & Hg & Hlg & _).
    now exists g.
  - intros i Hi.
    destruct (Hread i Hi)
      as (gs & ns & g & m & [= <-] & [= <-] & _ & _ & Hm & Hlm).
    now exists m.
Qed.

(** The name of the output array plays no part in the loop. *)
Lemma SetTuple_SetName (a : vtkDataArray) (name : string) (i : nat) (buffer : list R) :
  SetTuple (SetName a name) i buffer
  = option_map (fun a' => SetName a' name) (SetTuple a i buffer).
Proof.
  unfold SetTuple, SetName. cbn [Tuples NumberOfComponents Name].
  now destruct ((i <? length (Tuples a))%nat
                && (NumberOfComponents a <=? length buffer)%nat)%bool.
Qed.

Lemma pointBody_relabel (ga na : option vtkDataArray) (name : string)
    (i : nat) (st : LoopState) :
  pointBody ga na i (relabel name st)
  = option_map (relabel name) (pointBody ga na i st).
Proof.
  unfold pointBody, relabel.
  cbn [velocityGradient normal wallShearRate wallShearRateArray setTupleCalls].
  destruct ga as [gradients|]; [ | reflexivity ].
  destruct (GetTuple gradients i (velocityGradient st)) as [g|]; [ | reflexivity ].
  destruct na as [normals|]; [ | reflexivity ].
  destruct (GetTuple normals i (normal st)) as [nrm|]; [ | reflexivity ].
  rewrite SetTuple_SetName.
  now destruct (SetTuple (wallShearRateArray st) i _).
Qed.

Lemma loop_relabel (ga na : option vtkDataArray) (name : string)
    (n : nat) (st : LoopState) :
  for_loop n (loopStep ga na) (Some (relabel name st))
  = option_map (relabel name) (for_loop n (loopStep ga na) (Some st)).
Proof.
  induction n as [|n IH]; [ reflexivity | ].
  rewrite !for_loop_S, IH.
  destruct (for_loop n (loopStep ga na) (Some st)) as [s|]; [ | reflexivity ].
  cbn [option_map loopStep]. apply pointBody_relabel.
Qed.

(** *** Arrays under other names *)

Lemma indexOfArray_insert_other (name other : string)
    (arrays : list vtkDataArray) (k : nat) (a : vtkDataArray) :
  indexOfArray other arrays = Some k ->
  hasName name a = false -> name <> other ->
  indexOfArray name (<[ k := a ]> arrays) = indexOfArray name arrays
  /\ forall j, indexOfArray name arrays = Some j ->
       <[ k := a ]> arrays !! j = arrays !! j.
Proof.
  intros Hk Ha Hne. revert k Hk.
  induction arrays as [|b rest IH]; intros k; cbn [indexOfArray]; [ discriminate | ].
  destruct (hasName other b) eqn:Hb.
  - intros [= <-].
    change (<[ 0%nat := a ]> (b :: rest)) with (a :: rest).
    cbn [indexOfArray]. rewrite Ha.
    assert (Hnb : hasName name b = false).
    { unfold hasName in *. destruct (Name b) as [nb|]; [ | reflexivity ].
      apply String.eqb_eq in Hb as ->. now apply String.eqb_neq. }
    rewrite Hnb. split; [ reflexivity | ].
    intros j. destruct (indexOfArray name rest); cbn [option_map]; [ | discriminate ].
    now intros [= <-].
  - destruct (indexOfArray other rest) as [k'|]; cbn [option_map]; [ | discriminate ].
    intros [= <-].
    change (<[ S k' := a ]> (b :: rest)) with (b :: <[ k' := a ]> rest).
    cbn [indexOfArray].
    destruct (IH k' eq_refl) as (Hidx & Hlook). rewrite Hidx.
    split; [ reflexivity | ].
    intros j. destruct (hasName name b).
    + now intros [= <-].
    + destruct (indexOfArray name rest) as [j'|]; cbn [option_map]; [ | discriminate ].
      intros [= <-]. now apply Hlook.
Qed.

Lemma indexOfArray_append_other (name : string) (arrays : list vtkDataArray)
    (a : vtkDataArray) :
  hasName name a = false ->
  indexOfArray name (arrays ++ [a]) = indexOfArray name arrays.
Proof.
  intros Ha. induction arrays as [|b rest IH]; cbn [indexOfArray app].
  - now rewrite Ha.
  - now rewrite IH.
Qed.

(** Adding an array leaves what every other name designates as it was. *)
Lemma GetArray_AddArray_other (pd : vtkPointData) (a : vtkDataArray)
    (name other : string) :
  Name a = Some other -> name <> other ->
  GetArray (AddArray pd a) name = GetArray pd name.
Proof.
  intros Ha Hne.
  assert (Hna : hasName name a = false).
  { unfold hasName. rewrite Ha. apply String.eqb_neq. congruence. }
  unfold AddArray, GetArray. rewrite Ha.
  destruct (indexOfArray other (Arrays pd)) as [k|] eqn:Hk; cbn [Arrays].
  - destruct (indexOfArray_insert_other _ _ _ _ _ Hk Hna Hne) as (-> & Hlook).
    destruct (indexOfArray name (Arrays pd)) as [j|]; [ | reflexivity ].
    now apply Hlook.
  - rewrite (indexOfArray_append_other _ _ _ Hna).
    destruct (indexOfArray name (Arrays pd)) as [j|] eqn:Hj; [ | reflexivity ].
    destruct (indexOfArray_Some _ _ _ Hj) as (b & Hb & _).
    rewrite lookup_app_l; [ reflexivity | ]. now apply lookup_lt_Some in Hb.
Qed.

(** ** Further facts about the whole method (lines 70-215) *)

Section RequestDataEdges.

Variable gradientFilter : GradientSettings -> vtkUnstructuredGrid -> vtkUnstructuredGrid.
Variable geometryFilter : vtkUnstructuredGrid -> vtkPolyData.
Variable normalsFilter : NormalsSettings -> vtkPolyData -> vtkPolyData.
Variable indeterminate : R.

Let surfaceOf := outputSurface gradientFilter geometryFilter normalsFilter.
Let run := RequestData gradientFilter geometryFilter normalsFilter indeterminate.
Let start := initialLoopState indeterminate.

(** The method past its two checks: the loop, then the copy and the
    attachment. *)
Lemma RequestData_past_checks (this : vtkvmtkMeshWallShearRate)
    (input : vtkUnstructuredGrid) (out : vtkPolyData) (v : string) :
  VelocityArrayName this = Some v ->
  GetArray (PointData input) v <> None ->
  let surface := surfaceOf this v input in
  let numberOfPoints := int_of_vtkIdType (GetNumberOfPoints surface) in
  run this input out
  = option_map
      (fun st => mkResult 1 (AddPointArray surface (wallShearRateArray st)) [])
      (for_loop (Z.to_nat numberOfPoints)
         (loopStep (GetArray (PointData surface) gradientArrayName)
            (GetNormals (PointData surface)))
         (Some (start this numberOfPoints))).
Proof.
  intros Hv Hva surface numberOfPoints. unfold run, RequestData. rewrite Hv.
  destruct (GetArray (PointData input) v); [ | contradiction ].
  cbv zeta. fold surfaceOf. fold surface. fold numberOfPoints. fold start.
  rewrite pointLoop_unfold.
  now destruct (for_loop _ _ _).
Qed.

(** X9. No check guards the two arrays read from the surface: when the
    surface has at least one point (and no more than an [int] counts) and
    lacks the gradient array or the normals, the method dereferences a
    NULL pointer in the loop and the run is undefined. *)
Theorem RequestData_missing_surface_array (this : vtkvmtkMeshWallShearRate)
    (input : vtkUnstructuredGrid) (out : vtkPolyData) (v : string) :
  VelocityArrayName this = Some v ->
  GetArray (PointData input) v <> None ->
  let surface := surfaceOf this v input in
  (0 < GetNumberOfPoints surface <= INT_MAX)%Z ->
  GetArray (PointData surface) gradientArrayName = None
    \/ GetNormals (PointData surface) = None ->
  run this input out = None.
Proof.
  intros Hv Hva surface Hcount Hmissing.
  rewrite (RequestData_past_checks _ _ _ _ Hv Hva). fold surface.
  rewrite int_of_vtkIdType_small by lia.
  destruct (Z.to_nat (GetNumberOfPoints surface)) as [|n] eqn:Hn; [ lia | ].
  now rewrite loop_missing_array.
Qed.

(** X10. On a surface without points the loop does not run: the method
    completes whatever arrays the surface has or lacks, reports nothing,
    and attaches an array of 3 components and no tuples under the output
    name. *)
Theorem RequestData_empty_surface (this : vtkvmtkMeshWallShearRate)
    (input : vtkUnstructuredGrid) (out : vtkPolyData) (v : string) :
  VelocityArrayName this = Some v ->
  GetArray (PointData input) v <> None ->
  let surface := surfaceOf this v input in
  Points surface = [] ->
  run this input out
  = Some (mkResult 1
            (AddPointArray surface (mkDataArray (Some (outputArrayName this)) 3 []))
            []).
Proof.
  intros Hv Hva surface Hempty.
  rewrite (RequestData_past_checks _ _ _ _ Hv Hva). fold surface.
  unfold GetNumberOfPoints. rewrite Hempty. reflexivity.
Qed.

(** X11. Past its two checks the method completes when every iteration can
    read its tuples, that is when for each point of the surface (an [int]
    counts them) both arrays are on the surface and hold at the point's
    index a tuple of at most 9, respectively 3, components: it returns 1,
    reports nothing, and the output carries under the output name an array
    of 3 components with one tuple per point of the surface. *)
Theorem RequestData_completes (this : vtkvmtkMeshWallShearRate)
    (input : vtkUnstructuredGrid) (out : vtkPolyData) (v : string) :
  VelocityArrayName this = Some v ->
  GetArray (PointData input) v <> None ->
  let surface := surfaceOf this v input in
  (GetNumberOfPoints surface <= INT_MAX)%Z ->
  (forall i, (i < length (Points surface))%nat ->
     readable (GetArray (PointData surface) gradientArrayName)
       (GetNormals (PointData surface)) i) ->
  exists res field,
    run this input out = Some res
    /\ ret res = 1%Z /\ errors res = []
    /\ GetArray (PointData (output res)) (outputArrayName this) = Some field
    /\ NumberOfComponents field = 3%nat
    /\ length (Tuples field) = length (Points surface).
Proof.
  intros Hv Hva surface Hcount Hread.
  rewrite (RequestData_past_checks _ _ _ _ Hv Hva). fold surface.
  rewrite int_of_vtkIdType_small by (unfold GetNumberOfPoints in *; lia).
  unfold GetNumberOfPoints. rewrite Nat2Z.id.
  destruct (start_invariant indeterminate this
              (Z.of_nat (length (Points surface))))
    as (Hg & Hn & Hw & Hc & Hname & Hlen & _).
  fold start in Hg, Hn, Hw, Hc, Hname, Hlen. rewrite Nat2Z.id in Hlen.
  destruct (loop_completes _ _ _ Hg Hn Hw Hc (length (Points surface))
              ltac:(lia) Hread) as (st & Hst).
  rewrite Hst. cbn [option_map].
  pose proof (loop_invariant _ _ _ Hg Hn Hw Hc _ _ Hst) as [].
  eexists _, (wallShearRateArray st). split; [ reflexivity | ].
  cbn [ret errors output AddPointArray PointData].
  split; [ reflexivity | ]. split; [ reflexivity | ].
  split; [ apply GetArray_AddArray; congruence | ].
  split; congruence.
Qed.

(** X15. Whatever the surface carries under a name other than the output
    name is in the output as it is on the surface: the same array, or
    none. *)
Theorem RequestData_other_arrays (this : vtkvmtkMeshWallShearRate)
    (input : vtkUnstructuredGrid) (out : vtkPolyData) (res : Result)
    (v name : string) :
  VelocityArrayName this = Some v ->
  run this input out = Some res -> errors res = [] ->
  name <> outputArrayName this ->
  GetArray (PointData (output res)) name
  = GetArray (PointData (surfaceOf this v input)) name.
Proof.
  intros Hv Hrun Herr Hne.
  destruct (RequestData_success _ _ _ _ _ _ _ _ _ Hv Hrun Herr)
    as (st & _ & Hloop & ->).
  pose proof (pointLoop_invariant _ _ _ _ _ _ Hloop) as [].
  destruct (start_invariant indeterminate this
              (int_of_vtkIdType
                 (GetNumberOfPoints
                    (outputSurface gradientFilter geometryFilter normalsFilter
                       this v input))))
    as (_ & _ & _ & _ & Hname & _).
  cbn [output AddPointArray PointData].
  apply GetArray_AddArray_other with (other := outputArrayName this);
    [ congruence | assumption ].
Qed.

(** X16. What a run that ends reports: nothing exactly when the name is
    set and the input has an array of that name; otherwise one message,
    which the specification classifies, with the output handed back as
    it was received. *)
Theorem RequestData_report (this : vtkvmtkMeshWallShearRate)
    (input : vtkUnstructuredGrid) (out : vtkPolyData) (res : Result) :
  run this input out = Some res ->
  (errors res = []
   <-> exists v, VelocityArrayName this = Some v
         /\ GetArray (PointData input) v <> None)
  /\ (errors res <> [] ->
      output res = out
      /\ exists message kind, errors res = [message] /\ errorKind message = Some kind).
Proof.
  unfold run, RequestData.
  destruct (VelocityArrayName this) as [v|].
  - destruct (GetArray (PointData input) v) as [va|] eqn:Hva.
    + destruct (pointLoop _ _ _ _); [ | discriminate ].
      intros [= <-]. cbn [errors output]. split.
      * split; [ | reflexivity ]. intros _. exists v. rewrite Hva.
        split; [ reflexivity | discriminate ].
      * intros H. now contradiction H.
    + intros [= <-]. cbn [errors output]. split.
      * split; [ discriminate | ].
        intros (v' & [= <-] & Hv'). now contradiction Hv'.
      * intros _. split; [ reflexivity | ]. now eexists _, MissingFieldError.
  - intros [= <-]. cbn [errors output]. split.
    + split; [ discriminate | ]. intros (v' & Hv' & _). discriminate Hv'.
    + intros _. split; [ reflexivity | ]. now eexists _, ConfigurationError.
Qed.

End RequestDataEdges.

(** ** What the result does not depend on *)

Section RequestDataIndependence.

Variable gradientFilter : GradientSettings -> vtkUnstructuredGrid -> vtkUnstructuredGrid.
Variable geometryFilter : vtkUnstructuredGrid -> vtkPolyData.
Variable normalsFilter : NormalsSettings -> vtkPolyData -> vtkPolyData.

Let surfaceOf := outputSurface gradientFilter geometryFilter normalsFilter.
Let run := RequestData gradientFilter geometryFilter normalsFilter.

(** X14. The output name decides under which name the array is attached
    and nothing else: with another [WallShearRateArrayName] the method is
    undefined on the same inputs, returns and reports the same, and on a
    run that reports nothing attaches an array with the same components
    and the same tuples. *)
Theorem RequestData_output_name_only_names (indeterminate : R)
    (this : vtkvmtkMeshWallShearRate) (name' : option string)
    (input : vtkUnstructuredGrid) (out : vtkPolyData) :
  let this' := withOutputName this name' in
  (run indeterminate this input out = None
   <-> run indeterminate this' input out = None)
  /\ forall res res',
       run indeterminate this input out = Some res ->
       run indeterminate this' input out = Some res' ->
       ret res = ret res' /\ errors res = errors res'
       /\ (errors res <> [] -> output res = output res')
       /\ (errors res = [] ->
           exists field field',
             GetArray (PointData (output res)) (outputArrayName this) = Some field
             /\ GetArray (PointData (output res')) (outputArrayName this')
                = Some field'
             /\ NumberOfComponents field = NumberOfComponents field'
             /\ Tuples field = Tuples field').
Proof.
  intros this'.
  destruct (VelocityArrayName this) as [v|] eqn:Hv.
  2: { unfold run, RequestData, this'. cbn [withOutputName VelocityArrayName].
       rewrite Hv. split; [ split; discriminate | ].
       intros res res' [= <-] [= <-]. cbn [ret errors output].
       repeat split. discriminate. }
  destruct (GetArray (PointData input) v) as [va|] eqn:Hva.
  2: { unfold run, RequestData, this'. cbn [withOutputName VelocityArrayName].
       rewrite Hv, Hva. split; [ split; discriminate | ].
       intros res res' [= <-] [= <-]. cbn [ret errors output].
       repeat split. discriminate. }
  assert (Hva' : GetArray (PointData input) v <> None) by (rewrite Hva; discriminate).
  assert (Hv' : VelocityArrayName this' = Some v) by exact Hv.
  unfold run.
  rewrite (RequestData_past_checks _ _ _ _ _ _ _ _ Hv Hva').
  rewrite (RequestData_past_checks _ _ _ _ _ _ _ _ Hv' Hva').
  change (outputSurface gradientFilter geometryFilter normalsFilter this' v input)
    with (outputSurface gradientFilter geometryFilter normalsFilter this v input).
  fold surfaceOf. set (surface := surfaceOf this v input).
  set (numberOfPoints := int_of_vtkIdType (GetNumberOfPoints surface)).
  change (initialLoopState indeterminate this' numberOfPoints)
    with (relabel (outputArrayName this')
            (initialLoopState indeterminate this numberOfPoints)).
  rewrite loop_relabel.
  destruct (for_loop _ _ (Some (initialLoopState indeterminate this numberOfPoints)))
    as [st|] eqn:Hst; cbn [option_map].
  2: { split; [ split; reflexivity | ]. intros res res' H. discriminate H. }
  split; [ split; discriminate | ].
  intros res res' [= <-] [= <-]. cbn [ret errors output AddPointArray PointData].
  destruct (start_invariant indeterminate this numberOfPoints)
    as (Hg & Hn & Hw & Hc & Hname & _).
  pose proof (loop_invariant _ _ _ Hg Hn Hw Hc _ _ Hst) as [].
  split; [ reflexivity | ]. split; [ reflexivity | ].
  split; [ intros H; now contradiction H | ]. intros _.
  exists (wallShearRateArray st),
    (SetName (wallShearRateArray st) (outputArrayName this')).
  split; [ apply GetArray_AddArray; congruence | ].
  split; [ now apply GetArray_AddArray | ].
  split; reflexivity.
Qed.

End RequestDataIndependence.

(** ** The further facts at work on the stand-ins *)

Lemma RequestData_missing_surface_array_witness :
  RequestData (TestDoubles.constantGradient TestDoubles.pureShear)
    TestDoubles.wholeBoundary EdgeDoubles.noNormals 0
    TestDoubles.withVelocity TestDoubles.segment emptyPolyData
  = None.
Proof.
  apply (RequestData_missing_surface_array
           (TestDoubles.constantGradient TestDoubles.pureShear)
           TestDoubles.wholeBoundary EdgeDoubles.noNormals 0
           TestDoubles.withVelocity TestDoubles.segment emptyPolyData
           "Velocity"%string eq_refl).
  - discriminate.
  - split; [ reflexivity | discriminate ].
  - right. reflexivity.
Defined.

Lemma RequestData_empty_surface_witness :
  exists res,
    TestDoubles.run TestDoubles.withVelocity EdgeDoubles.noPoints emptyPolyData
    = Some res
    /\ errors res = []
    /\ GetArray (PointData (output res)) "WallShearRate"
       = Some (mkDataArray (Some "WallShearRate"%string) 3 []).
Proof.
  eexists. split.
  - apply (RequestData_empty_surface
             (TestDoubles.constantGradient TestDoubles.pureShear)
             TestDoubles.wholeBoundary
             (TestDoubles.constantNormals TestDoubles.alongX) 0
             TestDoubles.withVelocity EdgeDoubles.noPoints emptyPolyData
             "Velocity"%string eq_refl).
    + discriminate.
    + reflexivity.
  - split; reflexivity.
Defined.

Lemma narrow_surface_readable (i : nat) :
  (i < 2)%nat ->
  readable
    (GetArray
       (PointData
          (outputSurface (EdgeDoubles.gradientOfWidth [1; 2; 3; 4; 5; 6; 7; 8])
             TestDoubles.wholeBoundary
             (TestDoubles.constantNormals TestDoubles.alongX)
             TestDoubles.withVelocity "Velocity" TestDoubles.segment))
       gradientArrayName)
    (GetNormals
       (PointData
          (outputSurface (EdgeDoubles.gradientOfWidth [1; 2; 3; 4; 5; 6; 7; 8])
             TestDoubles.wholeBoundary
             (TestDoubles.constantNormals TestDoubles.alongX)
             TestDoubles.withVelocity "Velocity" TestDoubles.segment)))
    i.
Proof.
  intros Hi.
  destruct i as [|[|i]]; [ | | lia ];
    (eexists _, _, _, _; split; [ reflexivity | ]; split; [ reflexivity | ];
     split; [ reflexivity | ]; split; [ cbn; lia | ];
     split; [ reflexivity | cbn; lia ]).
Qed.

Lemma RequestData_completes_witness :
  exists res field,
    RequestData (EdgeDoubles.gradientOfWidth [1; 2; 3; 4; 5; 6; 7; 8])
      TestDoubles.wholeBoundary (TestDoubles.constantNormals TestDoubles.alongX) 7
      TestDoubles.withVelocity TestDoubles.segment emptyPolyData
    = Some res
    /\ ret res = 1%Z /\ errors res = []
    /\ GetArray (PointData (output res)) "WallShearRate" = Some field
    /\ NumberOfComponents field = 3%nat
    /\ length (Tuples field) = 2%nat.
Proof.
  apply (RequestData_completes
           (EdgeDoubles.gradientOfWidth [1; 2; 3; 4; 5; 6; 7; 8])
           TestDoubles.wholeBoundary
           (TestDoubles.constantNormals TestDoubles.alongX) 7
           TestDoubles.withVelocity TestDoubles.segment emptyPolyData
           "Velocity"%string eq_refl).
  - discriminate.
  - cbv. discriminate.
  - exact narrow_surface_readable.
Defined.

Lemma RequestData_other_arrays_witness :
  exists res gradients,
    TestDoubles.run TestDoubles.withVelocity TestDoubles.segment emptyPolyData = Some res
    /\ GetArray (PointData (output res)) "VelocityGradient" = Some gradients
    /\ GetArray
         (PointData
            (TestDoubles.surfaceOf TestDoubles.withVelocity "Velocity"
               TestDoubles.segment))
         "VelocityGradient" = Some gradients.
Proof.
  destruct segment_passes as (res & Hrun & Herr).
  pose proof (RequestData_other_arrays
                (TestDoubles.constantGradient TestDoubles.pureShear)
                TestDoubles.wholeBoundary
                (TestDoubles.constantNormals TestDoubles.alongX) 0
                TestDoubles.withVelocity TestDoubles.segment emptyPolyData res
                "Velocity"%string "VelocityGradient"%string eq_refl Hrun Herr
                ltac:(discriminate)) as Hsame.
  eexists res, _. split; [ exact Hrun | ]. split; [ | reflexivity ].
  exact Hsame.
Defined.

Lemma RequestData_report_witness :
  exists res,
    TestDoubles.run TestDoubles.withPressure TestDoubles.segment emptyPolyData
    = Some res
    /\ errors res <> []
    /\ output res = emptyPolyData.
Proof.
  assert (Hrun : exists res,
             TestDoubles.run TestDoubles.withPressure TestDoubles.segment
               emptyPolyData = Some res /\ errors res <> [])
    by (eexists; split; [ reflexivity | discriminate ]).
  destruct Hrun as (res & Hrun & Herr).
  destruct (RequestData_report
              (TestDoubles.constantGradient TestDoubles.pureShear)
              TestDoubles.wholeBoundary
              (TestDoubles.constantNormals TestDoubles.alongX) 0
              TestDoubles.withPressure TestDoubles.segment emptyPolyData res Hrun)
    as (_ & Hfailed).
  destruct (Hfailed Herr) as (Hout & _).
  exists res. auto.
Defined.

(** ** Arithmetic of doubles

    Facts about binary64 that the kernel's lines rest on: doubling and
    halving are exact below [DBL_MAX / 2], a zero times a finite double is
    a zero, and an infinity or NaN times a zero is NaN. *)

Section Binary64Arithmetic.

Import Binary64.
Local Open Scope Z_scope.

Local Abbreviation SFhalf := (S754_finite false 4503599627370496 (-53)).

Lemma canonical_cases (m : positive) (e : Z) :
  SpecFloat.bounded prec emax m e = true ->
  (Zpos (digits2_pos m) = 53 /\ -1074 <= e <= 971)
  \/ (e = -1074 /\ Zpos (digits2_pos m) < 53).
Proof.
  unfold SpecFloat.bounded, canonical_mantissa, fexp, SpecFloat.emin, prec, emax.
  intros H. apply andb_prop in H as [H1 H2].
  apply Z.eqb_eq in H1. apply Z.leb_le in H2. lia.
Qed.

Ltac sf_step :=
  cbn [shr shr_record_of_loc SpecFloat.iter_pos shr_1 shr_m shr_r shr_s
         loc_of_shr_record round_nearest_even orb fst snd].

(** [x + x] for a finite [x] of exponent at most 970: the exponent goes up
    by one, or, for a subnormal, the mantissa is doubled. *)
Lemma SF_double (s : bool) (m : positive) (e : Z) :
  SpecFloat.bounded prec emax m e = true -> e <= 970 ->
  SF64add (S754_finite s m e) (S754_finite s m e)
  = if Z.eqb (Zpos (digits2_pos m)) 53 then S754_finite s m (e + 1)
    else S754_finite s m~0 e.
Proof.
  intros Hb He.
  unfold SF64add, SFadd. rewrite Z.min_id.
  unfold shl_align. rewrite Z.sub_diag. cbn [fst].
  assert (Hsum : cond_Zopp s (Zpos m) + cond_Zopp s (Zpos m)
                 = cond_Zopp s (Zpos m~0)).
  { destruct s; cbn [cond_Zopp]; lia. }
  rewrite Hsum.
  assert (Hround : binary_normalize prec emax (cond_Zopp s (Zpos m~0)) e false
                   = binary_round prec emax s m~0 e).
  { destruct s; reflexivity. }
  rewrite Hround. unfold binary_round, shl_align.
  cbn [digits2_pos].
  destruct (canonical_cases m e Hb) as [[Hd Hr] | [He' Hd]].
  - rewrite Hd, Z.eqb_refl.
    replace (fexp prec emax (Zpos (Pos.succ (digits2_pos m)) + e)) with (e + 1)
      by (unfold fexp, SpecFloat.emin, prec, emax; lia).
    replace (e + 1 - e) with 1 by lia.
    unfold binary_round_aux, shr_fexp, Zdigits2. cbn [digits2_pos].
    replace (fexp prec emax (Zpos (Pos.succ (digits2_pos m)) + e)) with (e + 1)
      by (unfold fexp, SpecFloat.emin, prec, emax; lia).
    replace (e + 1 - e) with 1 by lia.
    sf_step.
    replace (fexp prec emax (Zpos (digits2_pos m) + (e + 1))) with (e + 1)
      by (unfold fexp, SpecFloat.emin, prec, emax; lia).
    rewrite Z.sub_diag. sf_step.
    replace (e + 1 <=? emax - prec) with true
      by (symmetry; apply Z.leb_le; unfold emax, prec; lia).
    reflexivity.
  - replace (Zpos (digits2_pos m) =? 53) with false
      by (symmetry; apply Z.eqb_neq; lia).
    replace (fexp prec emax (Zpos (Pos.succ (digits2_pos m)) + e)) with e
      by (unfold fexp, SpecFloat.emin, prec, emax; lia).
    rewrite Z.sub_diag.
    unfold binary_round_aux, shr_fexp, Zdigits2. cbn [digits2_pos].
    replace (fexp prec emax (Zpos (Pos.succ (digits2_pos m)) + e)) with e
      by (unfold fexp, SpecFloat.emin, prec, emax; lia).
    rewrite Z.sub_diag. sf_step. cbn [digits2_pos].
    replace (fexp prec emax (Zpos (Pos.succ (digits2_pos m)) + e)) with e
      by (unfold fexp, SpecFloat.emin, prec, emax; lia).
    rewrite Z.sub_diag. sf_step.
    replace (e <=? emax - prec) with true
      by (symmetry; apply Z.leb_le; unfold emax, prec; lia).
    reflexivity.
Qed.

Lemma digits_shift52 (m : positive) :
  Zpos (digits2_pos (4503599627370496 * m)) = Zpos (digits2_pos m) + 52.
Proof.
  cbv beta iota delta [Pos.mul PosDef.Pos.mul]. cbn [digits2_pos]. lia.
Qed.

(** [0.5 * x] for a normal [x] above the smallest exponent: the exponent
    goes down by one. *)
Lemma SF_half_normal (s : bool) (m : positive) (e : Z) :
  Zpos (digits2_pos m) = 53 -> -1073 <= e <= 971 ->
  SF64mul SFhalf (S754_finite s m e) = S754_finite s m (e - 1).
Proof.
  intros Hd He. unfold SF64mul, SFmul. cbn [xorb].
  unfold binary_round_aux, shr_fexp, Zdigits2.
  rewrite digits_shift52.
  replace (fexp prec emax (Zpos (digits2_pos m) + 52 + (-53 + e)) - (-53 + e))
    with 52 by (unfold fexp, SpecFloat.emin, prec, emax; lia).
  cbv beta iota delta [Pos.mul PosDef.Pos.mul]. sf_step.
  replace (fexp prec emax (Zpos (digits2_pos m) + (-53 + e + 52))) with (-53 + e + 52)
    by (unfold fexp, SpecFloat.emin, prec, emax; lia).
  rewrite Z.sub_diag. sf_step.
  replace (-53 + e + 52 <=? emax - prec) with true
    by (symmetry; apply Z.leb_le; unfold emax, prec; lia).
  f_equal. lia.
Qed.

(** [0.5 * x] for a subnormal [x] with an even mantissa: the mantissa is
    halved. *)
Lemma SF_half_subnormal (s : bool) (m : positive) (e : Z) :
  e = -1074 -> Zpos (digits2_pos m) < 53 ->
  SF64mul SFhalf (S754_finite s m~0 e) = S754_finite s m e.
Proof.
  intros He Hd. unfold SF64mul, SFmul. cbn [xorb].
  unfold binary_round_aux, shr_fexp, Zdigits2.
  rewrite digits_shift52. cbn [digits2_pos].
  replace (fexp prec emax (Zpos (Pos.succ (digits2_pos m)) + 52 + (-53 + e))
           - (-53 + e))
    with 53 by (unfold fexp, SpecFloat.emin, prec, emax; lia).
  cbv beta iota delta [Pos.mul PosDef.Pos.mul]. sf_step.
  replace (fexp prec emax (Zpos (digits2_pos m) + (-53 + e + 53))) with (-53 + e + 53)
    by (unfold fexp, SpecFloat.emin, prec, emax; lia).
  rewrite Z.sub_diag. sf_step.
  replace (-53 + e + 53 <=? emax - prec) with true
    by (symmetry; apply Z.leb_le; unfold emax, prec; lia).
  f_equal. lia.
Qed.

Lemma SF_half_double (s : bool) (m : positive) (e : Z) :
  SpecFloat.bounded prec emax m e = true -> e <= 970 ->
  SF64mul SFhalf (SF64add (S754_finite s m e) (S754_finite s m e))
  = S754_finite s m e.
Proof.
  intros Hb He. rewrite (SF_double s m e Hb He).
  destruct (canonical_cases m e Hb) as [[Hd Hr] | [He' Hd]].
  - rewrite Hd, Z.eqb_refl, SF_half_normal by lia. f_equal. lia.
  - replace (Zpos (digits2_pos m) =? 53) with false
      by (symmetry; apply Z.eqb_neq; lia).
    now apply SF_half_subnormal.
Qed.

Lemma half_spec : Prim2SF 0.5%float = SFhalf.
Proof. reflexivity. Qed.

(** A double of magnitude at most [DBL_MAX / 2] is a zero, or finite with
    an exponent of 970 at most. *)
Lemma small_cases (x : float) :
  (abs x <=? half_max)%float = true ->
  (exists s, Prim2SF x = S754_zero s)
  \/ (exists s m e, Prim2SF x = S754_finite s m e
        /\ SpecFloat.bounded prec emax m e = true /\ e <= 970).
Proof.
  intros H. rewrite FloatAxioms.leb_spec, abs_spec in H.
  pose proof (Prim2SF_valid x) as Hv.
  destruct (Prim2SF x) as [s | s | | s m e]; cbn [SFabs] in H.
  - left. now exists s.
  - discriminate.
  - discriminate.
  - right. exists s, m, e. repeat split; auto.
    change (Prim2SF half_max) with (S754_finite false 9007199254740991 970) in H.
    unfold SFleb, SFcompare in H.
    destruct (Z.compare_spec e 970); first [ lia | discriminate ].
Qed.

(** [0.5 * (x + x)] is [x], bit for bit, up to [DBL_MAX / 2]. *)
Lemma half_double (x : float) :
  (abs x <=? half_max)%float = true ->
  (0.5 * (x + x))%float = x.
Proof.
  intros Hx. apply Prim2SF_inj. rewrite mul_spec, add_spec, half_spec.
  destruct (small_cases x Hx) as [(s & ->) | (s & m & e & -> & Hb & He)].
  - now destruct s.
  - now apply SF_half_double.
Qed.

(** Doubles that compare equal are the same double, or two zeros. *)
Lemma eqb_cases (x y : float) :
  (x =? y)%float = true ->
  x = y \/ ((exists s, Prim2SF x = S754_zero s) /\ (exists s, Prim2SF y = S754_zero s)).
Proof.
  intros H. rewrite FloatAxioms.eqb_spec in H.
  destruct (Prim2SF x) as [s | s | | s m e] eqn:Hx;
    destruct (Prim2SF y) as [s' | s' | | s' m' e'] eqn:Hy;
    unfold SFeqb, SFcompare in H;
    try discriminate H;
    try (destruct s; discriminate H);
    try (destruct s'; discriminate H).
  - right. eauto.
  - left. apply Prim2SF_inj. rewrite Hx, Hy.
    destruct s, s'; try discriminate H; reflexivity.
  - left. apply Prim2SF_inj. rewrite Hx, Hy.
    destruct s, s'; try discriminate H;
      destruct (Z.compare_spec e e'); try discriminate H; subst e';
      destruct (Pos.compare_cont Eq m m') eqn:Hm; try discriminate H;
      apply Pos.compare_eq in Hm; now subst m'.
Qed.

Lemma eqb_refl_small (x : float) :
  (abs x <=? half_max)%float = true -> (x =? x)%float = true.
Proof.
  intros Hx. rewrite FloatAxioms.eqb_spec.
  destruct (small_cases x Hx) as [(s & ->) | (s & m & e & -> & _)].
  - reflexivity.
  - unfold SFeqb, SFcompare. rewrite Z.compare_refl.
    assert (Hm : Pos.compare_cont Eq m m = Eq) by apply Pos.compare_refl.
    rewrite Hm. now destruct s.
Qed.

(** [0.5 * (x + y) == x] when [x == y], up to [DBL_MAX / 2]. *)
Lemma half_sum (x y : float) :
  (x =? y)%float = true ->
  (abs x <=? half_max)%float = true ->
  (0.5 * (x + y) =? x)%float = true.
Proof.
  intros Hxy Hx. destruct (eqb_cases x y Hxy) as [<- | [(s & Hs) (s' & Hs')]].
  - rewrite (half_double x Hx). now apply eqb_refl_small.
  - rewrite FloatAxioms.eqb_spec, mul_spec, add_spec, half_spec, Hs, Hs'.
    now destruct s, s'.
Qed.

(** Zeros, finite doubles and NaN, by their representation. *)
Lemma is_zero_spec (x : float) :
  is_zero x = true <-> exists s, Prim2SF x = S754_zero s.
Proof.
  unfold is_zero. rewrite FloatAxioms.eqb_spec.
  change (Prim2SF zero) with (S754_zero false).
  destruct (Prim2SF x) as [s | s | | s m e]; split.
  - intros _. now exists s.
  - reflexivity.
  - now destruct s.
  - intros (s' & H). discriminate H.
  - discriminate.
  - intros (s' & H). discriminate H.
  - now destruct s.
  - intros (s' & H). discriminate H.
Qed.

Lemma is_nan_spec (x : float) :
  is_nan x = true <-> Prim2SF x = S754_nan.
Proof.
  unfold is_nan. rewrite FloatAxioms.eqb_spec.
  destruct (Prim2SF x) as [s | s | | s m e]; split; try discriminate;
    try reflexivity; unfold SFeqb, SFcompare; intros H.
  - destruct s; cbn in H; discriminate H.
  - rewrite Z.compare_refl in H.
    assert (Hm : Pos.compare_cont Eq m m = Eq) by apply Pos.compare_refl.
    rewrite Hm in H. destruct s; cbn in H; discriminate H.
Qed.

Lemma is_finite_spec (x : float) :
  is_finite x = true ->
  (exists s, Prim2SF x = S754_zero s) \/ (exists s m e, Prim2SF x = S754_finite s m e).
Proof.
  unfold is_finite, is_nan, is_infinity. intros H.
  rewrite !FloatAxioms.eqb_spec, abs_spec in H.
  change (Prim2SF infinity) with (S754_infinity false) in H.
  destruct (Prim2SF x) as [s | s | | s m e] eqn:Hx.
  - left. now exists s.
  - destruct s; cbn in H; discriminate H.
  - cbn in H; discriminate H.
  - right. now exists s, m, e.
Qed.

Lemma not_finite_spec (x : float) :
  is_finite x = false ->
  (exists s, Prim2SF x = S754_infinity s) \/ Prim2SF x = S754_nan.
Proof.
  intros H.
  destruct (Prim2SF x) as [s | s | | s m e] eqn:Hx; eauto; exfalso;
    unfold is_finite, is_nan, is_infinity in H;
    rewrite !FloatAxioms.eqb_spec, abs_spec, Hx in H;
    change (Prim2SF infinity) with (S754_infinity false) in H.
  - destruct s; cbn in H; discriminate H.
  - unfold SFeqb, SFcompare, SFabs in H. rewrite Z.compare_refl in H.
    assert (Hm : Pos.compare_cont Eq m m = Eq) by apply Pos.compare_refl.
    rewrite Hm in H. destruct s; cbn in H; discriminate H.
Qed.

(** A finite double times a zero is a zero. *)
Lemma zero_mul (a z : float) :
  is_finite a = true -> is_zero z = true -> is_zero (a * z)%float = true.
Proof.
  intros Ha Hz. apply is_zero_spec in Hz as (sz & Hz).
  apply is_zero_spec. rewrite mul_spec, Hz.
  destruct (is_finite_spec a Ha) as [(s & ->) | (s & m & e & ->)]; cbn; eauto.
Qed.

Lemma zero_mul_zero (a z : float) :
  is_zero a = true -> is_zero z = true -> is_zero (a * z)%float = true.
Proof.
  intros Ha Hz. apply is_zero_spec in Ha as (sa & Ha).
  apply is_zero_spec in Hz as (sz & Hz).
  apply is_zero_spec. rewrite mul_spec, Ha, Hz. cbn. eauto.
Qed.

(** A zero less a zero is a zero. *)
Lemma zero_sub (a b : float) :
  is_zero a = true -> is_zero b = true -> is_zero (a - b)%float = true.
Proof.
  intros Ha Hb. apply is_zero_spec in Ha as (sa & Ha).
  apply is_zero_spec in Hb as (sb & Hb).
  apply is_zero_spec. rewrite sub_spec, Ha, Hb.
  destruct sa, sb; cbn; eauto.
Qed.

(** An infinity or NaN times a zero is NaN. *)
Lemma nan_mul_zero (a z : float) :
  is_finite a = false -> is_zero z = true -> is_nan (a * z)%float = true.
Proof.
  intros Ha Hz. apply is_zero_spec in Hz as (sz & Hz).
  apply is_nan_spec. rewrite mul_spec, Hz.
  destruct (not_finite_spec a Ha) as [(s & ->) | ->]; reflexivity.
Qed.

(** NaN spreads through products and differences. *)
Lemma nan_mul (a b : float) : is_nan a = true -> is_nan (a * b)%float = true.
Proof.
  intros Ha. apply is_nan_spec in Ha. apply is_nan_spec.
  rewrite mul_spec, Ha. reflexivity.
Qed.

Lemma nan_sub_l (a b : float) : is_nan a = true -> is_nan (a - b)%float = true.
Proof.
  intros Ha. apply is_nan_spec in Ha. apply is_nan_spec.
  rewrite sub_spec, Ha. reflexivity.
Qed.

Lemma nan_sub_r (a b : float) : is_nan b = true -> is_nan (a - b)%float = true.
Proof.
  intros Hb. apply is_nan_spec in Hb. apply is_nan_spec.
  rewrite sub_spec, Hb. now destruct (Prim2SF a).
Qed.

End Binary64Arithmetic.

(** ** The kernel on doubles (lines 170-203) *)

Section Binary64Kernel.

Import Binary64.

(** [half_max] is [DBL_MAX / 2]: doubling it gives [DBL_MAX], and doubling
    the next double is an overflow. *)
Lemma half_max_spec :
  (0.5 * DBL_MAX)%float = half_max
  /\ (half_max + half_max)%float = DBL_MAX
  /\ (next_up half_max + next_up half_max)%float = infinity.
Proof. repeat split; reflexivity. Qed.

(** C10. On doubles the symmetrizer gives back an already symmetric tuple
    ([g[3i+j] == g[3j+i]]) when every cell is at most [DBL_MAX / 2] in
    magnitude: [S[i][j] == g[3i+j]] for all [i], [j] below three, and
    [S[i][j]] is [g[3i+j]] bit for bit where the two mirrored cells are
    the same double. *)
Theorem binary64_idempotent (g : list float) (i j : nat) :
  symmetricTuple g -> withinHalfMax g ->
  (i < 3)%nat -> (j < 3)%nat ->
  (idx2 (shearRateTensor g) i j =? idx g (3 * i + j))%float = true
  /\ (idx g (3 * j + i) = idx g (3 * i + j) ->
      idx2 (shearRateTensor g) i j = idx g (3 * i + j)).
Proof.
  intros Hs Hb Hi Hj.
  assert (Hcell : idx2 (shearRateTensor g) i j
                  = (0.5 * (idx g (3 * i + j) + idx g (3 * j + i)))%float)
    by (index3 i Hi; index3 j Hj; reflexivity).
  rewrite Hcell. split.
  - apply half_sum; [ now apply Hs | apply Hb; lia ].
  - intros ->. apply half_double, Hb. lia.
Qed.

(** Beyond [DBL_MAX / 2] the sum of two mirrored cells overflows: on the
    symmetric tuple with [1e308] at [g[1]] and [g[3]], all of whose cells
    are finite, [S[0][1]] is an infinity and differs from [g[1]]. *)
Lemma binary64_idempotent_fails :
  symmetricTuple Binary64Doubles.overflowingShear
  /\ (forall k, (k < 9)%nat ->
        is_finite (idx Binary64Doubles.overflowingShear k) = true)
  /\ idx2 (shearRateTensor Binary64Doubles.overflowingShear) 0 1 = infinity
  /\ (idx2 (shearRateTensor Binary64Doubles.overflowingShear) 0 1
      =? idx Binary64Doubles.overflowingShear (3 * 0 + 1))%float = false.
Proof.
  split; [ | split; [ | split ] ].
  - intros i j Hi Hj. index3 i Hi; index3 j Hj; reflexivity.
  - intros k Hk. do 9 (destruct k as [|k]; [ reflexivity | ]). lia.
  - reflexivity.
  - reflexivity.
Qed.

Lemma moderate_symmetric : symmetricTuple Binary64Doubles.moderate.
Proof. intros i j Hi Hj. index3 i Hi; index3 j Hj; reflexivity. Qed.

Lemma moderate_within : withinHalfMax Binary64Doubles.moderate.
Proof. intros k Hk. do 9 (destruct k as [|k]; [ reflexivity | ]). lia. Qed.

Lemma binary64_idempotent_witness :
  (idx2 (shearRateTensor Binary64Doubles.moderate) 1 2
   =? idx Binary64Doubles.moderate (3 * 1 + 2))%float = true
  /\ (idx Binary64Doubles.moderate (3 * 2 + 1)
      = idx Binary64Doubles.moderate (3 * 1 + 2) ->
      idx2 (shearRateTensor Binary64Doubles.moderate) 1 2
      = idx Binary64Doubles.moderate (3 * 1 + 2)).
Proof.
  apply (binary64_idempotent Binary64Doubles.moderate 1 2
           moderate_symmetric moderate_within); lia.
Defined.

(** The three cells the projector stores. *)
Lemma binary64_normalProjector_cells (S : list (list float)) (n w : list float) :
  length w = 3%nat ->
  normalProjector S n w =
    [ (nS S n 0 - nSn S n * idx n 0)%float;
      (nS S n 1 - nSn S n * idx n 1)%float;
      (nS S n 2 - nSn S n * idx n 2)%float ].
Proof.
  intros Hw.
  destruct w as [|w0 [|w1 [|w2 [|? ?]]]]; try discriminate Hw.
  reflexivity.
Qed.

Lemma binary64_pointKernel_length (g n w : list float) :
  length w = 3%nat -> length (pointKernel g n w) = 3%nat.
Proof.
  intros Hw. unfold pointKernel.
  now rewrite binary64_normalProjector_cells.
Qed.

(** The projector overwrites its buffer: what the buffer held does not
    reach the result. *)
Lemma binary64_pointKernel_buffer (g n w w' : list float) :
  length w = 3%nat -> length w' = 3%nat ->
  pointKernel g n w = pointKernel g n w'.
Proof.
  intros Hw Hw'. unfold pointKernel.
  now rewrite !binary64_normalProjector_cells.
Qed.

(** X8. With a zero vector for a normal (each cell a zero of either sign)
    what the kernel stores is decided by overflow alone: three zeros when
    every product [2.0 * S[a][b]] is finite, three NaN as soon as one of
    them is an infinity or NaN. *)
Theorem binary64_zero_normal (g n w : list float) :
  length w = 3%nat ->
  (forall k, (k < 3)%nat -> is_zero (idx n k) = true) ->
  ((forall a b, (a < 3)%nat -> (b < 3)%nat ->
      is_finite (2.0 * idx2 (shearRateTensor g) a b)%float = true) ->
   Forall (fun x => is_zero x = true) (pointKernel g n w))
  /\ ((exists a b, (a < 3)%nat /\ (b < 3)%nat
         /\ is_finite (2.0 * idx2 (shearRateTensor g) a b)%float = false) ->
      Forall (fun x => is_nan x = true) (pointKernel g n w)).
Proof.
  intros Hw Hn. unfold pointKernel.
  rewrite (binary64_normalProjector_cells _ _ _ Hw).
  set (S := shearRateTensor g). split.
  - intros HS.
    assert (Hterm : forall a b c, (a < 3)%nat -> (b < 3)%nat -> (c < 3)%nat ->
               is_zero (2.0 * idx2 S a b * idx n c)%float = true)
      by (intros; apply zero_mul; auto).
    assert (HnSn : is_zero (nSn S n) = true).
    { unfold nSn, for_loop. cbn [seq fold_left].
      repeat (apply zero_sub;
              [ | apply zero_mul_zero; [ apply Hterm; lia | apply Hn; lia ] ]).
      reflexivity. }
    assert (HnS : forall j, (j < 3)%nat -> is_zero (nS S n j) = true).
    { intros j Hj. unfold nS, for_loop. cbn [seq fold_left].
      repeat (apply zero_sub; [ | apply Hterm; lia ]).
      reflexivity. }
    repeat constructor; apply zero_sub;
      try (apply HnS; lia);
      (apply zero_mul_zero; [ assumption | apply Hn; lia ]).
  - intros (a & b & Ha & Hb & Hab).
    assert (Hterm : is_nan (2.0 * idx2 S a b * idx n a * idx n b)%float = true)
      by (apply nan_mul, nan_mul_zero; auto).
    assert (HnSn : is_nan (nSn S n) = true).
    { unfold nSn, for_loop. cbn [seq fold_left].
      index3 a Ha; index3 b Hb;
        repeat first [ apply nan_sub_r; exact Hterm | apply nan_sub_l ]. }
    repeat constructor; apply nan_sub_r, nan_mul, HnSn.
Qed.

Lemma binary64_zero_normal_witness :
  Forall (fun x => is_zero x = true)
    (pointKernel Binary64Doubles.moderate [0; -0; 0]%float [nan; nan; nan]%float)
  /\ Forall (fun x => is_nan x = true)
       (pointKernel Binary64Doubles.overflowingStretch [0; 0; 0]%float
          [0; 0; 0]%float).
Proof.
  split.
  - apply (binary64_zero_normal Binary64Doubles.moderate [0; -0; 0]%float
             [nan; nan; nan]%float eq_refl).
    + intros k Hk. index3 k Hk; reflexivity.
    + intros a b Ha Hb. index3 a Ha; index3 b Hb; reflexivity.
  - apply (binary64_zero_normal Binary64Doubles.overflowingStretch
             [0; 0; 0]%float [0; 0; 0]%float eq_refl).
    + intros k Hk. index3 k Hk; reflexivity.
    + exists 0%nat, 0%nat. repeat split; lia.
Defined.

End Binary64Kernel.

(** ** The point loop on doubles (lines 150-205) *)

Section Binary64Loop.

Import Binary64.

Lemma binary64_GetTuple_inv (a : vtkDataArray) (i : nat) (buffer r : list float) :
  GetTuple a i buffer = Some r ->
  exists t, Tuples a !! i = Some t
            /\ (length t <= length buffer)%nat
            /\ r = t ++ drop (length t) buffer.
Proof.
  unfold GetTuple. destruct (Tuples a !! i) as [t|]; [ | discriminate ].
  destruct (Nat.leb_spec (length t) (length buffer)); [ | discriminate ].
  intros [= <-]. now exists t.
Qed.

(** A tuple as wide as the buffer replaces all of it. *)
Lemma binary64_GetTuple_full (a : vtkDataArray) (i : nat) (buffer : list float)
    (width : nat) :
  length buffer = width ->
  Forall (fun t => length t = width) (Tuples a) ->
  GetTuple a i buffer = Tuples a !! i.
Proof.
  intros Hb Hall. unfold GetTuple.
  destruct (Tuples a !! i) as [t|] eqn:Ht; [ | reflexivity ].
  rewrite Forall_lookup in Hall. rewrite (Hall i t Ht), Hb, Nat.leb_refl.
  rewrite drop_ge by lia. now rewrite app_nil_r.
Qed.

Lemma binary64_SetTuple_inv (a a' : vtkDataArray) (i : nat) (buffer : list float) :
  SetTuple a i buffer = Some a' ->
  (i < length (Tuples a))%nat
  /\ (NumberOfComponents a <= length buffer)%nat
  /\ a' = mkDataArray (Name a) (NumberOfComponents a)
            (<[ i := take (NumberOfComponents a) buffer ]> (Tuples a)).
Proof.
  unfold SetTuple.
  destruct (Nat.ltb_spec i (length (Tuples a)));
    destruct (Nat.leb_spec (NumberOfComponents a) (length buffer));
    cbn [andb]; try discriminate.
  intros [= <-]. auto.
Qed.

Lemma binary64_pointBody_inv (ga na : option vtkDataArray) (i : nat)
    (st st' : LoopState) :
  pointBody ga na i st = Some st' ->
  exists gradients normals g n arr,
    ga = Some gradients /\ na = Some normals
    /\ GetTuple gradients i (velocityGradient st) = Some g
    /\ GetTuple normals i (normal st) = Some n
    /\ SetTuple (wallShearRateArray st) i (pointKernel g n (wallShearRate st))
       = Some arr
    /\ st' = mkLoopState g n (pointKernel g n (wallShearRate st)) arr.
Proof.
  unfold pointBody.
  destruct ga as [gradients|]; [ | discriminate ].
  destruct (GetTuple gradients i (velocityGradient st)) as [g|] eqn:Hg;
    [ | discriminate ].
  destruct na as [normals|]; [ | discriminate ].
  destruct (GetTuple normals i (normal st)) as [n|] eqn:Hn; [ | discriminate ].
  destruct (SetTuple (wallShearRateArray st) i _) as [arr|] eqn:Harr;
    [ | discriminate ].
  intros [= <-]. now exists gradients, normals, g, n, arr.
Qed.

Lemma binary64_start (indeterminate : nat -> float) (allocated : nat -> nat -> float)
    (this : vtkvmtkMeshWallShearRate) (numberOfPoints : Z) :
  let st0 := initialLoopState indeterminate allocated this numberOfPoints in
  length (velocityGradient st0) = 9%nat
  /\ length (normal st0) = 3%nat
  /\ length (wallShearRate st0) = 3%nat
  /\ Name (wallShearRateArray st0) = Some (outputArrayName this)
  /\ NumberOfComponents (wallShearRateArray st0) = 3%nat
  /\ length (Tuples (wallShearRateArray st0)) = Z.to_nat numberOfPoints.
Proof.
  cbn. rewrite length_map, length_seq. auto 10.
Qed.

(** With gradient tuples of [k] cells and normal tuples of [m] cells, the
    cells of the two buffers beyond [k] and [m] are never written: every
    stored tuple is computed from the tuples read, completed by what the
    buffers held beyond them before the loop. *)
Lemma binary64_loop_stale (gradients normals : vtkDataArray) (st0 : LoopState)
    (k m : nat) :
  length (velocityGradient st0) = 9%nat ->
  length (normal st0) = 3%nat ->
  length (wallShearRate st0) = 3%nat ->
  NumberOfComponents (wallShearRateArray st0) = 3%nat ->
  Forall (fun t => length t = k) (Tuples gradients) ->
  Forall (fun t => length t = m) (Tuples normals) ->
  forall n st,
    for_loop n (loopStep (Some gradients) (Some normals)) (Some st0) = Some st ->
    length (velocityGradient st) = 9%nat
    /\ length (normal st) = 3%nat
    /\ length (wallShearRate st) = 3%nat
    /\ NumberOfComponents (wallShearRateArray st) = 3%nat
    /\ drop k (velocityGradient st) = drop k (velocityGradient st0)
    /\ drop m (normal st) = drop m (normal st0)
    /\ forall i, (i < n)%nat ->
         exists g nrm,
           Tuples gradients !! i = Some g /\ Tuples normals !! i = Some nrm
           /\ (length g <= 9)%nat /\ (length nrm <= 3)%nat
           /\ forall w, length w = 3%nat ->
                Tuples (wallShearRateArray st) !! i
                = Some (pointKernel
                          (g ++ drop k (velocityGradient st0))
                          (nrm ++ drop m (normal st0)) w).
Proof.
  intros Hg0 Hn0 Hw0 Hc0 Hk Hm. induction n as [|n IH]; intros st.
  - intros [= <-]. repeat split; auto. intros i Hi. lia.
  - rewrite for_loop_S.
    destruct (for_loop n (loopStep (Some gradients) (Some normals)) (Some st0))
      as [s|] eqn:Hs; [ | discriminate ].
    destruct (IH s eq_refl) as (Hlg & Hln & Hlw & Hc & Hdg & Hdn & Hstored).
    cbn [loopStep].
    intros (gs & ns & g & nrm & arr & [= <-] & [= <-] & Hg & Hnrm & Harr & ->)
      %binary64_pointBody_inv.
    apply binary64_SetTuple_inv in Harr as (Hlt & Hle & ->).
    apply binary64_GetTuple_inv in Hg as (tg & Htg & Hfg & ->).
    apply binary64_GetTuple_inv in Hnrm as (tn & Htn & Hfn & ->).
    assert (Hltg : length tg = k)
      by (rewrite Forall_lookup in Hk; exact (Hk n tg Htg)).
    assert (Hltn : length tn = m)
      by (rewrite Forall_lookup in Hm; exact (Hm n tn Htn)).
    rewrite Hltg, Hltn, Hdg, Hdn in *.
    cbn [velocityGradient normal wallShearRate wallShearRateArray Tuples
           NumberOfComponents].
    assert (Hdg0 : length (drop k (velocityGradient st0)) = (9 - k)%nat)
      by (rewrite length_drop; lia).
    assert (Hdn0 : length (drop m (normal st0)) = (3 - m)%nat)
      by (rewrite length_drop; lia).
    split; [ rewrite length_app; lia | ].
    split; [ rewrite length_app; lia | ].
    split; [ now apply binary64_pointKernel_length | ].
    split; [ assumption | ].
    split; [ now rewrite <- Hltg, drop_app_length | ].
    split; [ now rewrite <- Hltn, drop_app_length | ].
    intros i Hi. destruct (Nat.eq_dec i n) as [-> | Hne].
    + exists tg, tn. repeat split; auto; try lia. intros w Hw.
      rewrite list_lookup_insert_eq by assumption.
      rewrite Hc, take_ge.
      * f_equal. now apply binary64_pointKernel_buffer.
      * rewrite binary64_pointKernel_length; [ lia | assumption ].
    + destruct (Hstored i ltac:(lia)) as (g & nrm & Hg & Hnrm & Hfg' & Hfn' & Hst).
      exists g, nrm. repeat split; auto. intros w Hw.
      rewrite list_lookup_insert_ne by lia. now apply Hst.
Qed.

(** Two loops over the same arrays, started on buffers and allocations of
    the same sizes holding whatever they hold, fail at the same iteration
    or store the same tuples, when the tuples read are as wide as the
    buffers. *)
Lemma binary64_loop_alike (ga na : option vtkDataArray) (st0 st0' : LoopState) :
  length (velocityGradient st0) = 9%nat -> length (velocityGradient st0') = 9%nat ->
  length (normal st0) = 3%nat -> length (normal st0') = 3%nat ->
  length (wallShearRate st0) = 3%nat -> length (wallShearRate st0') = 3%nat ->
  NumberOfComponents (wallShearRateArray st0) = 3%nat ->
  NumberOfComponents (wallShearRateArray st0') = 3%nat ->
  Name (wallShearRateArray st0) = Name (wallShearRateArray st0') ->
  length (Tuples (wallShearRateArray st0)) = length (Tuples (wallShearRateArray st0')) ->
  (forall gradients, ga = Some gradients ->
     Forall (fun t => length t = 9%nat) (Tuples gradients)) ->
  (forall normals, na = Some normals ->
     Forall (fun t => length t = 3%nat) (Tuples normals)) ->
  forall n,
    match for_loop n (loopStep ga na) (Some st0),
          for_loop n (loopStep ga na) (Some st0') with
    | Some st, Some st' =>
        length (velocityGradient st) = 9%nat /\ length (velocityGradient st') = 9%nat
        /\ length (normal st) = 3%nat /\ length (normal st') = 3%nat
        /\ length (wallShearRate st) = 3%nat /\ length (wallShearRate st') = 3%nat
        /\ NumberOfComponents (wallShearRateArray st) = 3%nat
        /\ NumberOfComponents (wallShearRateArray st') = 3%nat
        /\ Name (wallShearRateArray st) = Name (wallShearRateArray st')
        /\ length (Tuples (wallShearRateArray st)) = length (Tuples (wallShearRateArray st0))
        /\ length (Tuples (wallShearRateArray st')) = length (Tuples (wallShearRateArray st0))
        /\ forall i, (i < n)%nat ->
             Tuples (wallShearRateArray st) !! i = Tuples (wallShearRateArray st') !! i
    | None, None => True
    | _, _ => False
    end.
Proof.
  intros Hg Hg' Hn Hn' Hw Hw' Hc Hc' Hname Hlen Hg9 Hn3.
  induction n as [|n IH].
  - cbn. repeat split; auto. intros i Hi. lia.
  - rewrite !for_loop_S.
    destruct (for_loop n (loopStep ga na) (Some st0)) as [s|];
      destruct (for_loop n (loopStep ga na) (Some st0')) as [s'|];
      try contradiction; [ | exact I ].
    destruct IH as (Hlg & Hlg' & Hln & Hln' & Hlw & Hlw' & Hsc & Hsc' & Hsn
                    & Hsl & Hsl' & Hsame).
    cbn [loopStep]. unfold pointBody.
    destruct ga as [gradients|]; [ | exact I ].
    rewrite (binary64_GetTuple_full gradients n _ 9 Hlg (Hg9 _ eq_refl)).
    rewrite (binary64_GetTuple_full gradients n _ 9 Hlg' (Hg9 _ eq_refl)).
    destruct (Tuples gradients !! n) as [g|] eqn:Hgn; [ | exact I ].
    destruct na as [normals|]; [ | exact I ].
    rewrite (binary64_GetTuple_full normals n _ 3 Hln (Hn3 _ eq_refl)).
    rewrite (binary64_GetTuple_full normals n _ 3 Hln' (Hn3 _ eq_refl)).
    destruct (Tuples normals !! n) as [nrm|] eqn:Hnn; [ | exact I ].
    rewrite (binary64_pointKernel_buffer g nrm (wallShearRate s') (wallShearRate s))
      by assumption.
    set (w := pointKernel g nrm (wallShearRate s)).
    assert (Hlw0 : length w = 3%nat) by now apply binary64_pointKernel_length.
    assert (Hg9' : length g = 9%nat).
    { pose proof (Hg9 _ eq_refl) as H. rewrite Forall_lookup in H. exact (H n g Hgn). }
    assert (Hn3' : length nrm = 3%nat).
    { pose proof (Hn3 _ eq_refl) as H. rewrite Forall_lookup in H. exact (H n nrm Hnn). }
    unfold SetTuple. rewrite Hsc, Hsc', Hlw0, Hsl, Hsl'.
    destruct (Nat.ltb_spec n (length (Tuples (wallShearRateArray st0))));
      cbn [andb Nat.leb]; [ | exact I ].
    cbn [velocityGradient normal wallShearRate wallShearRateArray Tuples
           NumberOfComponents Name].
    rewrite !length_insert.
    repeat split; auto.
    intros i Hi. destruct (Nat.eq_dec i n) as [-> | Hne].
    + rewrite !list_lookup_insert_eq by lia. reflexivity.
    + rewrite !list_lookup_insert_ne by lia. apply Hsame. lia.
Qed.

Lemma binary64_vtkDataArray_eq (a b : vtkDataArray) :
  Name a = Name b -> NumberOfComponents a = NumberOfComponents b ->
  Tuples a = Tuples b -> a = b.
Proof. destruct a, b. cbn. congruence. Qed.

Lemma drop_uninitialised (indeterminate : nat -> float) (first count k : nat) :
  drop k (uninitialised indeterminate first count)
  = uninitialised indeterminate (first + k) (count - k).
Proof.
  unfold uninitialised. now rewrite skipn_map, skipn_seq.
Qed.

(** X12. Tuples narrower than the local arrays leave the arrays' last
    cells as they were, uninitialised: with gradient tuples of [k] cells
    and normal tuples of [m] cells, every tuple the loop stores is the
    kernel of the gradient tuple read, completed by cells [k] to 8 of
    [velocityGradient] as they were on entry, and of the normal tuple
    read, completed by cells [m] to 2 of [normal] as they were on entry,
    each cell holding any double of its own (NaN included). *)
Theorem binary64_narrow_tuples (indeterminate : nat -> float)
    (allocated : nat -> nat -> float) (this : vtkvmtkMeshWallShearRate)
    (gradients normals : vtkDataArray) (numberOfPoints : Z) (k m : nat)
    (st : LoopState) :
  Forall (fun t => length t = k) (Tuples gradients) ->
  Forall (fun t => length t = m) (Tuples normals) ->
  pointLoop (Some gradients) (Some normals) numberOfPoints
    (initialLoopState indeterminate allocated this numberOfPoints) = Some st ->
  forall i, (i < Z.to_nat numberOfPoints)%nat ->
    exists g n,
      Tuples gradients !! i = Some g /\ Tuples normals !! i = Some n
      /\ (k <= 9)%nat /\ (m <= 3)%nat
      /\ forall w, length w = 3%nat ->
           Tuples (wallShearRateArray st) !! i
           = Some (pointKernel
                     (g ++ uninitialised indeterminate k (9 - k))
                     (n ++ uninitialised indeterminate (18 + m) (3 - m)) w).
Proof.
  intros Hk Hm Hloop i Hi. unfold pointLoop in Hloop.
  destruct (binary64_start indeterminate allocated this numberOfPoints)
    as (Hg & Hn & Hw & _ & Hc & _).
  destruct (binary64_loop_stale _ _ _ k m Hg Hn Hw Hc Hk Hm _ _ Hloop)
    as (_ & _ & _ & _ & _ & _ & Hstored).
  destruct (Hstored i Hi) as (g & n & Hgi & Hni & Hfg & Hfn & Hst).
  exists g, n.
  assert (Hlg : length g = k) by (rewrite Forall_lookup in Hk; exact (Hk i g Hgi)).
  assert (Hln : length n = m) by (rewrite Forall_lookup in Hm; exact (Hm i n Hni)).
  repeat split; auto; try lia.
  intros w Hlw. rewrite (Hst w Hlw).
  cbn [initialLoopState velocityGradient normal].
  now rewrite !drop_uninitialised.
Qed.

(** X13. When the gradient tuples have 9 components and the normal tuples
    3, what the three local arrays and the fresh allocation hold before
    they are written never reaches the array the loop leaves for line 208
    to attach: whatever double each uninitialised cell holds, NaN
    included, the loop fills the same array, or is undefined alike. *)
Theorem binary64_ignores_uninitialised
    (indeterminate indeterminate' : nat -> float)
    (allocated allocated' : nat -> nat -> float)
    (this : vtkvmtkMeshWallShearRate)
    (velocityGradientArray normalsArray : option vtkDataArray)
    (numberOfPoints : Z) :
  (forall gradients, velocityGradientArray = Some gradients ->
     Forall (fun t => length t = 9%nat) (Tuples gradients)) ->
  (forall normals, normalsArray = Some normals ->
     Forall (fun t => length t = 3%nat) (Tuples normals)) ->
  option_map wallShearRateArray
    (pointLoop velocityGradientArray normalsArray numberOfPoints
       (initialLoopState indeterminate allocated this numberOfPoints))
  = option_map wallShearRateArray
      (pointLoop velocityGradientArray normalsArray numberOfPoints
         (initialLoopState indeterminate' allocated' this numberOfPoints)).
Proof.
  intros Hg9 Hn3. unfold pointLoop.
  destruct (binary64_start indeterminate allocated this numberOfPoints)
    as (Hg & Hn & Hw & Hname & Hc & Hlen).
  destruct (binary64_start indeterminate' allocated' this numberOfPoints)
    as (Hg' & Hn' & Hw' & Hname' & Hc' & Hlen').
  pose proof (binary64_loop_alike velocityGradientArray normalsArray _ _
                Hg Hg' Hn Hn' Hw Hw' Hc Hc'
                ltac:(congruence) ltac:(congruence) Hg9 Hn3
                (Z.to_nat numberOfPoints)) as Halike.
  destruct (for_loop _ _ (Some (initialLoopState indeterminate allocated _ _)))
    as [st|];
    destruct (for_loop _ _ (Some (initialLoopState indeterminate' allocated' _ _)))
      as [st'|]; try contradiction; [ | reflexivity ].
  destruct Halike as (_ & _ & _ & _ & _ & _ & Hsc & Hsc' & Hsn & Hsl & Hsl' & Hsame).
  cbn [option_map]. f_equal.
  apply binary64_vtkDataArray_eq; [ assumption | congruence | ].
  apply list_eq. intros i.
  destruct (Nat.lt_ge_cases i (Z.to_nat numberOfPoints)) as [Hi | Hi].
  - now apply Hsame.
  - rewrite !lookup_ge_None_2; [ reflexivity | lia | lia ].
Qed.

Lemma narrow_loop_runs :
  exists st,
    pointLoop (Some Binary64Doubles.narrowGradients)
      (Some Binary64Doubles.narrowNormals) 2
      (initialLoopState Binary64Doubles.allNaN Binary64Doubles.heapNaN
         TestDoubles.withVelocity 2)
    = Some st.
Proof. eexists. reflexivity. Qed.

Lemma binary64_narrow_tuples_witness :
  exists st,
    pointLoop (Some Binary64Doubles.narrowGradients)
      (Some Binary64Doubles.narrowNormals) 2
      (initialLoopState Binary64Doubles.allNaN Binary64Doubles.heapNaN
         TestDoubles.withVelocity 2)
    = Some st
    /\ Tuples (wallShearRateArray st) !! 1%nat
       = Some (pointKernel ([0; 1; 0; 1; 0; 0; 0; 0] ++ [nan])%float
                 ([1; 0] ++ [nan])%float [0; 0; 0]%float).
Proof.
  destruct narrow_loop_runs as (st & Hloop).
  destruct (binary64_narrow_tuples Binary64Doubles.allNaN Binary64Doubles.heapNaN
              TestDoubles.withVelocity Binary64Doubles.narrowGradients
              Binary64Doubles.narrowNormals 2 8 2 st)
    with (i := 1%nat) as (g & n & [= <-] & [= <-] & _ & _ & Hcell).
  - repeat constructor.
  - repeat constructor.
  - exact Hloop.
  - cbv; lia.
  - exists st. split; [ exact Hloop | ]. exact (Hcell [0; 0; 0]%float eq_refl).
Defined.

Lemma binary64_ignores_uninitialised_witness :
  option_map wallShearRateArray
    (pointLoop (Some Binary64Doubles.gradients) (Some Binary64Doubles.normals) 2
       (initialLoopState Binary64Doubles.allNaN Binary64Doubles.heapNaN
          TestDoubles.withVelocity 2))
  = option_map wallShearRateArray
      (pointLoop (Some Binary64Doubles.gradients) (Some Binary64Doubles.normals) 2
         (initialLoopState Binary64Doubles.counting Binary64Doubles.heapCounting
            TestDoubles.withVelocity 2)).
Proof.
  apply (binary64_ignores_uninitialised Binary64Doubles.allNaN
           Binary64Doubles.counting Binary64Doubles.heapNaN
           Binary64Doubles.heapCounting TestDoubles.withVelocity
           (Some Binary64Doubles.gradients) (Some Binary64Doubles.normals) 2).
  - intros gradients [= <-]. repeat constructor.
  - intros normals [= <-]. repeat constructor.
Defined.

End Binary64Loop.
